(** * IMU integration activity: strapdown dead reckoning

    Shallow embedding of [imu_integration/src/estimator/activity.cpp]
    (class [imu_integration::estimator::Activity]).

    Number model.  A C++ [double] is read as a real number ([R]): every
    arithmetic operator denotes the exact operation.  The two places where
    a real result does not exist (a division by zero, the square root of a
    negative number: IEEE arithmetic answers with an infinity or a NaN) are
    kept visible: [fdiv] and [fsqrt] return [Fault NotANumber] there, and
    every function that divides or takes a root lives in the [result]
    monad.  [size_t] is an [N] with its wrap-around at [2^64] written out.

    Library model.  [Eigen] (vectors, matrices, quaternions) and
    [std::deque] are third-party code; [Module Eigen] and [Module Deque]
    follow their documented behaviour (Eigen 3.3 and later:
    [normalized()] returns a copy of its input when the squared norm is
    not positive). *)

From Stdlib Require Import Reals Lra Lia List Bool NArith ZArith RNsatz.
Import ListNotations.

Open Scope R_scope.

(** ** Results of a call *)

Inductive fault : Type :=
| NotANumber        (* a division by zero or the root of a negative number *)
| EmptyDeque        (* [back()] of an empty deque: undefined behaviour *)
| OutOfRange        (* [at(i)] past the end: [std::out_of_range] *)
| LengthError       (* growing a deque past [max_size()]: [std::length_error] *)
| OutOfFuel.        (* the loop of [Run] did not stop within the fuel given *)

Inductive result (A : Type) : Type :=
| Ok (a : A)
| Fault (f : fault).

Arguments Ok {A} a.
Arguments Fault {A} f.

Definition bind {A B : Type} (r : result A) (k : A -> result B) : result B :=
  match r with
  | Ok a => k a
  | Fault f => Fault f
  end.

Notation "x <- r ;; k" := (bind r (fun x => k))
  (at level 61, r at next level, right associativity).
Notation "' p <- r ;; k" := (bind r (fun x => match x with p => k end))
  (at level 61, p pattern, r at next level, right associativity).

Definition fdiv (a b : R) : result R :=
  if Req_dec_T b 0 then Fault NotANumber else Ok (a / b).

Definition fsqrt (a : R) : result R :=
  if Rlt_dec a 0 then Fault NotANumber else Ok (sqrt a).

(** ** size_t *)

Definition SIZE_MODULUS : N := 2 ^ 64.

Definition size_t_sub (a b : N) : N :=
  ((a + SIZE_MODULUS - b mod SIZE_MODULUS) mod SIZE_MODULUS)%N.

(** ** std::deque *)

Module Deque.

Definition deque (A : Type) : Type := list A.

(** libstdc++: [max_size()] of a deque is at most [PTRDIFF_MAX]. *)
Definition max_size : N := (2 ^ 63 - 1)%N.

Definition size {A : Type} (d : deque A) : N := N.of_nat (length d).

Definition back {A : Type} (d : deque A) : result A :=
  match rev d with
  | x :: _ => Ok x
  | [] => Fault EmptyDeque
  end.

Definition at_ {A : Type} (d : deque A) (i : N) : result A :=
  match nth_error d (N.to_nat i) with
  | Some x => Ok x
  | None => Fault OutOfRange
  end.

(** [d.insert(d.end(), first, last)] *)
Definition insert_end {A : Type} (d more : deque A) : result (deque A) :=
  if (size d + size more <=? max_size)%N then Ok (d ++ more)
  else Fault LengthError.

End Deque.

(** ** Eigen: Vector3d, Matrix3d, Matrix4d, Quaterniond *)

Module Eigen.

Record Vector3d : Type := mkVector3d { x : R; y : R; z : R }.

Record Matrix3d : Type := mkMatrix3d {
  m00 : R; m01 : R; m02 : R;
  m10 : R; m11 : R; m12 : R;
  m20 : R; m21 : R; m22 : R }.

Record Matrix4d : Type := mkMatrix4d {
  p00 : R; p01 : R; p02 : R; p03 : R;
  p10 : R; p11 : R; p12 : R; p13 : R;
  p20 : R; p21 : R; p22 : R; p23 : R;
  p30 : R; p31 : R; p32 : R; p33 : R }.

(** Coefficients are stored in the order x, y, z, w; the four-scalar
    constructor takes them in the order w, x, y, z. *)
Record Quaterniond : Type := mkCoeffs { qx : R; qy : R; qz : R; qw : R }.

Definition Quaterniond_wxyz (w x y z : R) : Quaterniond := mkCoeffs x y z w.

Definition vadd (a b : Vector3d) : Vector3d :=
  mkVector3d (x a + x b) (y a + y b) (z a + z b).

Definition vsub (a b : Vector3d) : Vector3d :=
  mkVector3d (x a - x b) (y a - y b) (z a - z b).

Definition vscale (s : R) (a : Vector3d) : Vector3d :=
  mkVector3d (s * x a) (s * y a) (s * z a).

Definition vdiv (a : Vector3d) (s : R) : result Vector3d :=
  vx <- fdiv (x a) s ;;
  vy <- fdiv (y a) s ;;
  vz <- fdiv (z a) s ;;
  Ok (mkVector3d vx vy vz).

Definition mulv (m : Matrix3d) (v : Vector3d) : Vector3d :=
  mkVector3d (m00 m * x v + m01 m * y v + m02 m * z v)
             (m10 m * x v + m11 m * y v + m12 m * z v)
             (m20 m * x v + m21 m * y v + m22 m * z v).

Definition squaredNorm (a : Vector3d) : R := x a * x a + y a * y a + z a * z a.

Definition norm (a : Vector3d) : result R := fsqrt (squaredNorm a).

(** [MatrixBase::normalized()]:
    [z = n.squaredNorm(); if (z > 0) return n / sqrt(z); else return n;] *)
Definition normalized (n : Vector3d) : result Vector3d :=
  let z := squaredNorm n in
  if Rgt_dec z 0 then s <- fsqrt z ;; vdiv n s else Ok n.

Definition Identity3 : Matrix3d := mkMatrix3d 1 0 0  0 1 0  0 0 1.

Definition coeff (m : Matrix3d) (i j : nat) : R :=
  match i, j with
  | 0, 0 => m00 m | 0, 1 => m01 m | 0, _ => m02 m
  | 1, 0 => m10 m | 1, 1 => m11 m | 1, _ => m12 m
  | _, 0 => m20 m | _, 1 => m21 m | _, _ => m22 m
  end%nat.

Definition trace (m : Matrix3d) : R := m00 m + m11 m + m22 m.

Definition transpose (m : Matrix3d) : Matrix3d :=
  mkMatrix3d (m00 m) (m10 m) (m20 m)
             (m01 m) (m11 m) (m21 m)
             (m02 m) (m12 m) (m22 m).

Definition mmul (a b : Matrix3d) : Matrix3d :=
  mkMatrix3d
    (m00 a * m00 b + m01 a * m10 b + m02 a * m20 b)
    (m00 a * m01 b + m01 a * m11 b + m02 a * m21 b)
    (m00 a * m02 b + m01 a * m12 b + m02 a * m22 b)
    (m10 a * m00 b + m11 a * m10 b + m12 a * m20 b)
    (m10 a * m01 b + m11 a * m11 b + m12 a * m21 b)
    (m10 a * m02 b + m11 a * m12 b + m12 a * m22 b)
    (m20 a * m00 b + m21 a * m10 b + m22 a * m20 b)
    (m20 a * m01 b + m21 a * m11 b + m22 a * m21 b)
    (m20 a * m02 b + m21 a * m12 b + m22 a * m22 b).

Definition determinant (m : Matrix3d) : R :=
  m00 m * (m11 m * m22 m - m12 m * m21 m)
  - m01 m * (m10 m * m22 m - m12 m * m20 m)
  + m02 m * (m10 m * m21 m - m11 m * m20 m).

(** [pose.block<3,3>(0,0)] read and written *)
Definition block33 (p : Matrix4d) : Matrix3d :=
  mkMatrix3d (p00 p) (p01 p) (p02 p)
             (p10 p) (p11 p) (p12 p)
             (p20 p) (p21 p) (p22 p).

Definition set_block33 (p : Matrix4d) (r : Matrix3d) : Matrix4d :=
  mkMatrix4d (m00 r) (m01 r) (m02 r) (p03 p)
             (m10 r) (m11 r) (m12 r) (p13 p)
             (m20 r) (m21 r) (m22 r) (p23 p)
             (p30 p) (p31 p) (p32 p) (p33 p).

(** [pose.block<3,1>(0,3)] read and written *)
Definition block31 (p : Matrix4d) : Vector3d :=
  mkVector3d (p03 p) (p13 p) (p23 p).

Definition set_block31 (p : Matrix4d) (t : Vector3d) : Matrix4d :=
  mkMatrix4d (p00 p) (p01 p) (p02 p) (x t)
             (p10 p) (p11 p) (p12 p) (y t)
             (p20 p) (p21 p) (p22 p) (z t)
             (p30 p) (p31 p) (p32 p) (p33 p).

(** The last row of a pose, which no block above covers. *)
Definition row3 (p : Matrix4d) : R * R * R * R := (p30 p, p31 p, p32 p, p33 p).

(** [q.coeffs().coeffRef(i) = v] for [i] in 0..2 (x, y, z) *)
Definition set_coeff (q : Quaterniond) (i : nat) (v : R) : Quaterniond :=
  match i with
  | 0%nat => mkCoeffs v (qy q) (qz q) (qw q)
  | 1%nat => mkCoeffs (qx q) v (qz q) (qw q)
  | _ => mkCoeffs (qx q) (qy q) v (qw q)
  end.

Definition set_w (q : Quaterniond) (v : R) : Quaterniond :=
  mkCoeffs (qx q) (qy q) (qz q) v.

(** [Quaterniond q(mat)]: conversion of a 3x3 matrix (Shoemake's method,
    [quaternionbase_assign_impl<Other,3,3>::run]). *)
Definition Quaterniond_of_matrix (mat : Matrix3d) : result Quaterniond :=
  let t := trace mat in
  if Rgt_dec t 0 then
    t <- fsqrt (t + 1) ;;
    let w := 0.5 * t in
    t <- fdiv 0.5 t ;;
    Ok (mkCoeffs ((coeff mat 2 1 - coeff mat 1 2) * t)
                 ((coeff mat 0 2 - coeff mat 2 0) * t)
                 ((coeff mat 1 0 - coeff mat 0 1) * t)
                 w)
  else
    let i := 0%nat in
    let i := if Rgt_dec (coeff mat 1 1) (coeff mat 0 0) then 1%nat else i in
    let i := if Rgt_dec (coeff mat 2 2) (coeff mat i i) then 2%nat else i in
    let j := ((i + 1) mod 3)%nat in
    let k := ((j + 1) mod 3)%nat in
    t <- fsqrt (coeff mat i i - coeff mat j j - coeff mat k k + 1) ;;
    let q := set_coeff (mkCoeffs 0 0 0 0) i (0.5 * t) in
    t <- fdiv 0.5 t ;;
    let q := set_w q ((coeff mat k j - coeff mat j k) * t) in
    let q := set_coeff q j ((coeff mat j i + coeff mat i j) * t) in
    let q := set_coeff q k ((coeff mat k i + coeff mat i k) * t) in
    Ok q.

(** [a * b], the Hamilton product *)
Definition qmul (a b : Quaterniond) : Quaterniond :=
  Quaterniond_wxyz
    (qw a * qw b - qx a * qx b - qy a * qy b - qz a * qz b)
    (qw a * qx b + qx a * qw b + qy a * qz b - qz a * qy b)
    (qw a * qy b + qy a * qw b + qz a * qx b - qx a * qz b)
    (qw a * qz b + qz a * qw b + qx a * qy b - qy a * qx b).

Definition qsquaredNorm (q : Quaterniond) : R :=
  qx q * qx q + qy q * qy q + qz q * qz q + qw q * qw q.

(** [q.normalized()] is [Quaternion(coeffs().normalized())], with the same
    guard as [normalized] on vectors. *)
Definition qnormalized (q : Quaterniond) : result Quaterniond :=
  let z := qsquaredNorm q in
  if Rgt_dec z 0 then
    s <- fsqrt z ;;
    nx <- fdiv (qx q) s ;;
    ny <- fdiv (qy q) s ;;
    nz <- fdiv (qz q) s ;;
    nw <- fdiv (qw q) s ;;
    Ok (mkCoeffs nx ny nz nw)
  else Ok q.

Definition toRotationMatrix (q : Quaterniond) : Matrix3d :=
  let tx := 2 * qx q in
  let ty := 2 * qy q in
  let tz := 2 * qz q in
  let twx := tx * qw q in
  let twy := ty * qw q in
  let twz := tz * qw q in
  let txx := tx * qx q in
  let txy := ty * qx q in
  let txz := tz * qx q in
  let tyy := ty * qy q in
  let tyz := tz * qy q in
  let tzz := tz * qz q in
  mkMatrix3d (1 - (tyy + tzz)) (txy - twz) (txz + twy)
             (txy + twz) (1 - (txx + tzz)) (tyz - twx)
             (txz - twy) (tyz + twx) (1 - (txx + tyy)).

(** Membership in SO(3): orthonormal columns and determinant one. *)
Definition is_rotation (m : Matrix3d) : Prop :=
  mmul (transpose m) m = Identity3 /\ determinant m = 1.

End Eigen.

Import Eigen.
Import Deque.

(** ** Sensor data and configuration *)

(** Modelled from the spec: the struct [IMUData] is declared in a header
    that is not among the sources.  Section 3, InertialSample: a time
    stamp in seconds, an angular velocity and a specific force, both in
    the body frame; the member names are the ones [activity.cpp] reads. *)
Module IMUData.
Record t : Type := mk {
  time : R;
  angular_velocity : Vector3d;
  linear_acceleration : Vector3d }.
End IMUData.

(** Modelled from the spec: the struct [OdomData] is declared in a header
    that is not among the sources.  Section 3, AuxiliaryPoseSample: a time
    stamp, a pose (a 4x4 homogeneous transform here, as [pose_] is assigned
    from it) and a velocity. *)
Module OdomData.
Record t : Type := mk {
  time : R;
  pose : Matrix4d;
  vel : Vector3d }.
End OdomData.

(** Modelled from the spec: the configuration struct is declared in a
    header that is not among the sources.  Section 3,
    CalibrationConstants: gravity and the two biases, the nine numbers
    [Init] reads from the parameter server. *)
Record IMUConfig : Type := mkIMUConfig {
  gravity : Vector3d;
  bias_angular_velocity : Vector3d;
  bias_linear_acceleration : Vector3d }.

(** What [PublishPose] sends (the time stamp and the frame names left out). *)
Record Odometry : Type := mkOdometry {
  orientation : Quaterniond;
  position : Vector3d;
  twist_linear : Vector3d }.

(** One line of the TUM trajectory format: [time x y z qx qy qz qw]. *)
Record TumLine : Type := mkTumLine {
  stamp : R;
  tum_x : R; tum_y : R; tum_z : R;
  tum_q : Quaterniond }.

(** ** The estimator's state *)

(** The data members of [Activity] that the estimator reads or writes
    (the class is declared in [activity.hpp]; the members and their types
    are read off their uses in [activity.cpp]).  [sensor_inited] is the
    function-local [static bool] of [UpdatePose]: it outlives each call,
    so it is part of the state. *)

Record Activity : Type := mkActivity {
  initialized_ : bool;
  G_ : Vector3d;
  angular_vel_bias_ : Vector3d;
  linear_acc_bias_ : Vector3d;
  imu_data_buff_ : deque IMUData.t;
  odom_data_buff_ : deque OdomData.t;
  pose_ : Matrix4d;
  vel_ : Vector3d;
  init_time_ : R;
  sensor_inited : bool }.

Definition set_imu_data_buff_ (st : Activity) (b : deque IMUData.t) : Activity :=
  mkActivity (initialized_ st) (G_ st) (angular_vel_bias_ st)
    (linear_acc_bias_ st) b (odom_data_buff_ st) (pose_ st) (vel_ st)
    (init_time_ st) (sensor_inited st).

Definition set_odom_data_buff_ (st : Activity) (b : deque OdomData.t) : Activity :=
  mkActivity (initialized_ st) (G_ st) (angular_vel_bias_ st)
    (linear_acc_bias_ st) (imu_data_buff_ st) b (pose_ st) (vel_ st)
    (init_time_ st) (sensor_inited st).

Definition set_pose_ (st : Activity) (p : Matrix4d) : Activity :=
  mkActivity (initialized_ st) (G_ st) (angular_vel_bias_ st)
    (linear_acc_bias_ st) (imu_data_buff_ st) (odom_data_buff_ st) p (vel_ st)
    (init_time_ st) (sensor_inited st).

Definition set_vel_ (st : Activity) (v : Vector3d) : Activity :=
  mkActivity (initialized_ st) (G_ st) (angular_vel_bias_ st)
    (linear_acc_bias_ st) (imu_data_buff_ st) (odom_data_buff_ st) (pose_ st) v
    (init_time_ st) (sensor_inited st).

Definition set_init_time_ (st : Activity) (t : R) : Activity :=
  mkActivity (initialized_ st) (G_ st) (angular_vel_bias_ st)
    (linear_acc_bias_ st) (imu_data_buff_ st) (odom_data_buff_ st) (pose_ st)
    (vel_ st) t (sensor_inited st).

Definition set_initialized_ (st : Activity) (b : bool) : Activity :=
  mkActivity b (G_ st) (angular_vel_bias_ st)
    (linear_acc_bias_ st) (imu_data_buff_ st) (odom_data_buff_ st) (pose_ st)
    (vel_ st) (init_time_ st) (sensor_inited st).

Definition set_sensor_inited (st : Activity) (b : bool) : Activity :=
  mkActivity (initialized_ st) (G_ st) (angular_vel_bias_ st)
    (linear_acc_bias_ st) (imu_data_buff_ st) (odom_data_buff_ st) (pose_ st)
    (vel_ st) (init_time_ st) b.

(** [Activity::Activity]: the initializer list sets the flag, gravity and
    the two biases; the buffers start empty; [pose_], [vel_] and
    [init_time_] are left indeterminate, so they are arguments here, and so
    is the value the process-wide [sensor_inited] has at that moment. *)
Definition Activity_ctor (pose0 : Matrix4d) (vel0 : Vector3d) (init_time0 : R)
    (sensor_inited0 : bool) : Activity :=
  mkActivity false
    (mkVector3d 0 0 (-9.81))
    (mkVector3d 0.0 0.0 0.0)
    (mkVector3d 0.0 0.0 0.0)
    [] [] pose0 vel0 init_time0 sensor_inited0.

(** [Activity::Init]: gravity and the biases come from the configuration. *)
Definition Init (cfg : IMUConfig) (st : Activity) : Activity :=
  mkActivity (initialized_ st)
    (gravity cfg) (bias_angular_velocity cfg) (bias_linear_acceleration cfg)
    (imu_data_buff_ st) (odom_data_buff_ st) (pose_ st) (vel_ st)
    (init_time_ st) (sensor_inited st).

(** Modelled from the spec: [IMUSubscriber::ParseData] and
    [OdomSubscriber::ParseData] have no body among the sources.  Section
    5: the caller first drains the available sensor samples into the
    buffers; section 6: the streams are ordered.  The samples that have
    arrived since the last call, [arrived], go to the end of the buffer. *)
Definition ParseData {A : Type} (arrived buff : deque A) : result (deque A) :=
  insert_end buff arrived.

(** [Activity::ReadData]; the arrivals at the two subscribers are the
    inputs [new_imu] and [new_odom]. *)
Definition ReadData (new_imu : deque IMUData.t) (new_odom : deque OdomData.t)
    (st : Activity) : result Activity :=
  imu <- ParseData new_imu (imu_data_buff_ st) ;;
  odom <- ParseData new_odom (odom_data_buff_ st) ;;
  Ok (set_odom_data_buff_ (set_imu_data_buff_ st imu) odom).

(** [Activity::HasData] *)
Definition HasData (st : Activity) : bool :=
  if (size (imu_data_buff_ st) <? 2)%N then false
  else if (size (odom_data_buff_ st) <? 2)%N then false
  else true.

(** [Activity::GetUnbiasedAngularVel] *)
Definition GetUnbiasedAngularVel (st : Activity) (angular_vel : Vector3d)
    : Vector3d :=
  vsub angular_vel (angular_vel_bias_ st).

(** [Activity::GetUnbiasedLinearAcc] *)
Definition GetUnbiasedLinearAcc (st : Activity) (linear_acc : Vector3d)
    (R : Matrix3d) : Vector3d :=
  vsub (mulv R (vsub linear_acc (linear_acc_bias_ st))) (G_ st).

(** [Activity::GetAngularDelta].  [Ok None] is the return value [false]
    (the output argument is not written); [Ok (Some d)] is [true] with
    [angular_delta = d]. *)
Definition GetAngularDelta (st : Activity) (index_curr index_prev : N)
    : result (option Vector3d) :=
  if ((index_curr <=? index_prev) || (size (imu_data_buff_ st) <=? index_curr))%N
  then Ok None
  else
    imu_data_curr <- at_ (imu_data_buff_ st) index_curr ;;
    imu_data_prev <- at_ (imu_data_buff_ st) index_prev ;;
    let delta_t := IMUData.time imu_data_curr - IMUData.time imu_data_prev in
    let angular_vel_curr :=
      GetUnbiasedAngularVel st (IMUData.angular_velocity imu_data_curr) in
    let angular_vel_prev :=
      GetUnbiasedAngularVel st (IMUData.angular_velocity imu_data_prev) in
    Ok (Some (vscale (0.5 * delta_t) (vadd angular_vel_curr angular_vel_prev))).

(** [Activity::GetAngularDeltaEuler], the variant commented out at the call *)
Definition GetAngularDeltaEuler (st : Activity) (index_curr index_prev : N)
    : result (option Vector3d) :=
  if ((index_curr <=? index_prev) || (size (imu_data_buff_ st) <=? index_curr))%N
  then Ok None
  else
    imu_data_curr <- at_ (imu_data_buff_ st) index_curr ;;
    imu_data_prev <- at_ (imu_data_buff_ st) index_prev ;;
    let delta_t := IMUData.time imu_data_curr - IMUData.time imu_data_prev in
    let angular_vel_prev :=
      GetUnbiasedAngularVel st (IMUData.angular_velocity imu_data_prev) in
    Ok (Some (vscale delta_t angular_vel_prev)).

(** [Activity::GetVelocityDelta].  [Ok (Some (dt, dv))] is [true] with
    [delta_t = dt] and [velocity_delta = dv]. *)
Definition GetVelocityDelta (st : Activity) (index_curr index_prev : N)
    (R_curr R_prev : Matrix3d) : result (option (R * Vector3d)) :=
  if ((index_curr <=? index_prev) || (size (imu_data_buff_ st) <=? index_curr))%N
  then Ok None
  else
    imu_data_curr <- at_ (imu_data_buff_ st) index_curr ;;
    imu_data_prev <- at_ (imu_data_buff_ st) index_prev ;;
    let delta_t := IMUData.time imu_data_curr - IMUData.time imu_data_prev in
    let linear_acc_curr :=
      GetUnbiasedLinearAcc st (IMUData.linear_acceleration imu_data_curr) R_curr in
    let linear_acc_prev :=
      GetUnbiasedLinearAcc st (IMUData.linear_acceleration imu_data_prev) R_prev in
    Ok (Some (delta_t,
              vscale (0.5 * delta_t) (vadd linear_acc_curr linear_acc_prev))).

(** [Activity::GetVelocityDeltaEuler], the variant commented out at the call *)
Definition GetVelocityDeltaEuler (st : Activity) (index_curr index_prev : N)
    (R_curr R_prev : Matrix3d) : result (option (R * Vector3d)) :=
  if ((index_curr <=? index_prev) || (size (imu_data_buff_ st) <=? index_curr))%N
  then Ok None
  else
    imu_data_curr <- at_ (imu_data_buff_ st) index_curr ;;
    imu_data_prev <- at_ (imu_data_buff_ st) index_prev ;;
    let delta_t := IMUData.time imu_data_curr - IMUData.time imu_data_prev in
    let linear_acc_prev :=
      GetUnbiasedLinearAcc st (IMUData.linear_acceleration imu_data_prev) R_prev in
    Ok (Some (delta_t, vscale delta_t linear_acc_prev)).

(** Lines 400-413 of [Activity::UpdateOrientation]: magnitude, direction
    and the incremental quaternion [dq]. *)
Definition UpdateOrientation_dq (angular_delta : Vector3d) : result Quaterniond :=
  angular_delta_mag <- norm angular_delta ;;
  angular_delta_dir <- normalized angular_delta ;;
  let angular_delta_cos := cos (angular_delta_mag / 2.0) in
  let angular_delta_sin := sin (angular_delta_mag / 2.0) in
  Ok (Quaterniond_wxyz
        angular_delta_cos
        (angular_delta_sin * x angular_delta_dir)
        (angular_delta_sin * y angular_delta_dir)
        (angular_delta_sin * z angular_delta_dir)).

(** [Activity::UpdateOrientation]: the new state, [R_curr] and [R_prev]. *)
Definition UpdateOrientation (angular_delta : Vector3d) (st : Activity)
    : result (Activity * Matrix3d * Matrix3d) :=
  dq <- UpdateOrientation_dq angular_delta ;;
  q <- Quaterniond_of_matrix (block33 (pose_ st)) ;;
  let q := qmul q dq in
  let R_prev := block33 (pose_ st) in
  qn <- qnormalized q ;;
  let st := set_pose_ st (set_block33 (pose_ st) (toRotationMatrix qn)) in
  let R_curr := block33 (pose_ st) in
  Ok (st, R_curr, R_prev).

(** [Activity::UpdatePosition] *)
Definition UpdatePosition (delta_t : R) (velocity_delta : Vector3d)
    (st : Activity) : Activity :=
  let st :=
    set_pose_ st
      (set_block31 (pose_ st)
         (vadd (block31 (pose_ st))
               (vadd (vscale delta_t (vel_ st))
                     (vscale (0.5 * delta_t) velocity_delta)))) in
  set_vel_ st (vadd (vel_ st) velocity_delta).

(** [Activity::PublishPose] *)
Definition PublishPose (st : Activity) : result Odometry :=
  q <- Quaterniond_of_matrix (block33 (pose_ st)) ;;
  let t := block31 (pose_ st) in
  Ok (mkOdometry q t (vel_ st)).

(** [Activity::SaveTrajectoryTum] once its two files exist: the line
    written to the ground-truth file and the one written to the estimate
    file. *)
Definition SaveTrajectoryTum (st : Activity) : result (TumLine * TumLine) :=
  odom_back <- back (odom_data_buff_ st) ;;
  let odom_pose := OdomData.pose odom_back in
  odom_q <- Quaterniond_of_matrix (block33 odom_pose) ;;
  odom_back' <- back (odom_data_buff_ st) ;;
  let odom_time := OdomData.time odom_back' - init_time_ st in
  let ground_truth :=
    mkTumLine odom_time (p03 odom_pose) (p13 odom_pose) (p23 odom_pose) odom_q in
  let imu_pose := pose_ st in
  imu_q <- Quaterniond_of_matrix (block33 imu_pose) ;;
  imu_back <- back (imu_data_buff_ st) ;;
  let imu_time := IMUData.time imu_back - init_time_ st in
  let laser_odom :=
    mkTumLine imu_time (p03 imu_pose) (p13 imu_pose) (p23 imu_pose) imu_q in
  Ok (ground_truth, laser_odom).

(** ** The cycle *)

Section Cycle.

(** [OdomData::SyncData(unsynced, synced, sync_time)] is declared in a
    header and defined in another translation unit.  It receives both
    deques by reference and returns a flag; here it returns the two deques
    as it leaves them together with the flag. *)
Variable SyncData :
  deque OdomData.t -> deque OdomData.t -> R ->
  result (deque OdomData.t * deque OdomData.t * bool).

(** The first branch of [Activity::UpdatePose], taken while
    [initialized_] is false.  The [static] deque [unsynced_odom_] is
    overwritten at the start of every call, so it is a local here. *)
Definition UpdatePose_init (st : Activity) : result (Activity * bool) :=
  let unsynced_odom_ := odom_data_buff_ st in
  if (size (imu_data_buff_ st) =? 0)%N then Ok (st, false)
  else
    imu_back <- back (imu_data_buff_ st) ;;
    let cloud_time := IMUData.time imu_back in
    ' (_, synced, valid_odom) <-
        SyncData unsynced_odom_ (odom_data_buff_ st) cloud_time ;;
    let st := set_odom_data_buff_ st synced in
    let checked :=
      if negb (sensor_inited st) then
        if negb valid_odom then None
        else Some (set_sensor_inited st true)
      else Some st in
    match checked with
    | None => Ok (st, false)
    | Some st =>
      odom_data <- back (odom_data_buff_ st) ;;
      imu_data <- back (imu_data_buff_ st) ;;
      let st := set_pose_ st (OdomData.pose odom_data) in
      let st := set_vel_ st (OdomData.vel odom_data) in
      let st := set_init_time_ st (OdomData.time odom_data) in
      let st := set_initialized_ st true in
      let st := set_odom_data_buff_ st [] in
      let st := set_imu_data_buff_ st [] in
      let st := set_imu_data_buff_ st (imu_data_buff_ st ++ [imu_data]) in
      let st := set_odom_data_buff_ st (odom_data_buff_ st ++ [odom_data]) in
      Ok (st, true)
    end.

(** The second branch of [Activity::UpdatePose]: one integration step. *)
Definition UpdatePose_integrate (st : Activity) : result (Activity * bool) :=
  imu_data <- back (imu_data_buff_ st) ;;
  let index_curr := size_t_sub (size (imu_data_buff_ st)) 1 in
  let index_prev := 0%N in
  r <- GetAngularDelta st index_curr index_prev ;;
  match r with
  | None => Ok (st, false)
  | Some angular_delta =>
    ' (st, R_curr, R_prev) <- UpdateOrientation angular_delta st ;;
    r <- GetVelocityDelta st index_curr index_prev R_curr R_prev ;;
    match r with
    | None => Ok (st, false)
    | Some (delta_t, velocity_delta) =>
      let st := UpdatePosition delta_t velocity_delta st in
      let st := set_imu_data_buff_ st [] in
      let st := set_imu_data_buff_ st (imu_data_buff_ st ++ [imu_data]) in
      odom_data <- back (odom_data_buff_ st) ;;
      let st := set_odom_data_buff_ st [] in
      let st := set_odom_data_buff_ st (odom_data_buff_ st ++ [odom_data]) in
      Ok (st, true)
    end
  end.

(** [Activity::UpdatePose]: the state after the call and the flag returned. *)
Definition UpdatePose (st : Activity) : result (Activity * bool) :=
  if negb (initialized_ st) then UpdatePose_init st
  else UpdatePose_integrate st.

(** The [while (HasData())] loop of [Activity::Run], with the messages
    published and the trajectory lines written, oldest first. *)
Fixpoint Run_loop (fuel : nat) (st : Activity)
    : result (Activity * list (Odometry * (TumLine * TumLine))) :=
  match fuel with
  | O => Fault OutOfFuel
  | S fuel =>
    if HasData st then
      ' (st, updated) <- UpdatePose st ;;
      if (updated : bool) then
        msg <- PublishPose st ;;
        lines <- SaveTrajectoryTum st ;;
        ' (st, out) <- Run_loop fuel st ;;
        Ok (st, (msg, lines) :: out)
      else Run_loop fuel st
    else Ok (st, [])
  end.

(** [Activity::Run]; [ReadData] always answers true. *)
Definition Run (fuel : nat) (new_imu : deque IMUData.t)
    (new_odom : deque OdomData.t) (st : Activity)
    : result (Activity * list (Odometry * (TumLine * TumLine))) :=
  st <- ReadData new_imu new_odom st ;;
  Run_loop fuel st.

(** A session: the calls a node makes on one [Activity] object. *)
Inductive call : Type :=
| CallInit (cfg : IMUConfig)
| CallReadData (new_imu : deque IMUData.t) (new_odom : deque OdomData.t)
| CallUpdatePose
| CallRun (fuel : nat) (new_imu : deque IMUData.t) (new_odom : deque OdomData.t).

Definition do_call (c : call) (st : Activity) : result Activity :=
  match c with
  | CallInit cfg => Ok (Init cfg st)
  | CallReadData new_imu new_odom => ReadData new_imu new_odom st
  | CallUpdatePose => ' (st, _) <- UpdatePose st ;; Ok st
  | CallRun fuel new_imu new_odom =>
      ' (st, _) <- Run fuel new_imu new_odom st ;; Ok st
  end.

Fixpoint session (calls : list call) (st : Activity) : result Activity :=
  match calls with
  | [] => Ok st
  | c :: calls => st <- do_call c st ;; session calls st
  end.

(** The states a session can be in: it starts from a constructed and
    configured object. *)
Definition reachable (st : Activity) : Prop :=
  exists pose0 vel0 init_time0 sensor_inited0 cfg calls,
    session calls
      (Init cfg (Activity_ctor pose0 vel0 init_time0 sensor_inited0)) = Ok st.

End Cycle.

(** ** The synchronizer, from its description *)

(** Modelled from the spec: part of [OdomData::SyncData], which has no
    body among the sources.  Section 4.1 and the glossary: linear
    blending between the two samples of the bracket. *)
Definition lerp (a b s : R) : R := a + s * (b - a).

(** Modelled from the spec: part of [OdomData::SyncData]; [lerp] on each
    coordinate. *)
Definition vlerp (a b : Vector3d) (s : R) : Vector3d :=
  mkVector3d (lerp (x a) (x b) s) (lerp (y a) (y b) s) (lerp (z a) (z b) s).

(** Modelled from the spec: part of [OdomData::SyncData].  Rotation
    block and translation are blended entry by entry; the last row is the
    left sample's. *)
Definition plerp (a b : Matrix4d) (s : R) : Matrix4d :=
  mkMatrix4d
    (lerp (p00 a) (p00 b) s) (lerp (p01 a) (p01 b) s)
    (lerp (p02 a) (p02 b) s) (lerp (p03 a) (p03 b) s)
    (lerp (p10 a) (p10 b) s) (lerp (p11 a) (p11 b) s)
    (lerp (p12 a) (p12 b) s) (lerp (p13 a) (p13 b) s)
    (lerp (p20 a) (p20 b) s) (lerp (p21 a) (p21 b) s)
    (lerp (p22 a) (p22 b) s) (lerp (p23 a) (p23 b) s)
    (p30 a) (p31 a) (p32 a) (p33 a).

(** Modelled from the spec: part of [OdomData::SyncData].  The forward
    scan for the bracket: the two consecutive samples around [sync_time]
    and the samples after the left one; [None] when the target lies before
    the first sample or fewer than two samples are left. *)
Fixpoint SyncData_bracket (unsynced : deque OdomData.t) (sync_time : R)
    : option (OdomData.t * OdomData.t * deque OdomData.t) :=
  match unsynced with
  | front :: rest =>
    match rest with
    | next :: _ =>
      if Rgt_dec (OdomData.time front) sync_time then None
      else if Rlt_dec (OdomData.time next) sync_time
           then SyncData_bracket rest sync_time
           else Some (front, next, rest)
    | [] => None
    end
  | [] => None
  end.

(** Modelled from the spec: [OdomData::SyncData] has no body among the
    sources.  Section 4.1: scan forward for two consecutive samples
    bracketing the target time; fail when the target precedes the first
    sample; otherwise blend the bracket linearly by the time fraction
    [(target - t_prev) / (t_curr - t_prev)], hand the blended sample over
    (it is appended to the synchronized deque) and drop the samples at or
    before the left bracket.  The velocity is blended like the
    translation. *)
Definition SyncData_spec (unsynced synced : deque OdomData.t) (sync_time : R)
    : result (deque OdomData.t * deque OdomData.t * bool) :=
  match SyncData_bracket unsynced sync_time with
  | None => Ok (unsynced, synced, false)
  | Some (front, next, kept) =>
    s <- fdiv (sync_time - OdomData.time front)
              (OdomData.time next - OdomData.time front) ;;
    let blended :=
      OdomData.mk sync_time
        (plerp (OdomData.pose front) (OdomData.pose next) s)
        (vlerp (OdomData.vel front) (OdomData.vel next) s) in
    Ok (kept, synced ++ [blended], true)
  end.

(** ** Concrete scenarios *)

Definition Zero3 : Vector3d := mkVector3d 0 0 0.

Definition Identity4 : Matrix4d :=
  mkMatrix4d 1 0 0 0  0 1 0 0  0 0 1 0  0 0 0 1.

(** A body at rest at the origin at time [t]. *)
Definition odom_at_rest (t : R) : OdomData.t := OdomData.mk t Identity4 Zero3.

(** No rotation, specific force [(0, 0, fz)], at time [t]. *)
Definition imu_sample (t fz : R) : IMUData.t :=
  IMUData.mk t Zero3 (mkVector3d 0 0 fz).

(** An initialized estimator at rest with the default calibration
    (gravity [(0,0,-9.81)], no bias), identity pose, and the two inertial
    samples of section 8's end-to-end scenario: [t = 0] and [t = 0.1],
    both with specific force [(0, 0, fz)]. *)
Definition end_to_end (fz : R) : Activity :=
  mkActivity true (mkVector3d 0 0 (-9.81)) Zero3 Zero3
    [imu_sample 0 fz; imu_sample 0.1 fz]
    [odom_at_rest 0]
    Identity4 Zero3 0 true.

(** Two buffered inertial samples whose time stamps go backwards. *)
Definition out_of_order : Activity :=
  mkActivity true (mkVector3d 0 0 (-9.81)) Zero3 Zero3
    [imu_sample 1 (-9.81); imu_sample 0 (-9.81)]
    [odom_at_rest 0]
    Identity4 Zero3 0 true.

(** A freshly constructed estimator with the default configuration. *)
Definition fresh : Activity :=
  Init (mkIMUConfig (mkVector3d 0 0 (-9.81)) Zero3 Zero3)
       (Activity_ctor Identity4 Zero3 0 false).

(** The first arrivals of a session: one inertial sample at [t = 0.5]
    between two auxiliary samples at [t = 0] and [t = 1]. *)
Definition first_arrivals : call :=
  CallReadData [imu_sample 0.5 (-9.81)] [odom_at_rest 0; odom_at_rest 1].

(** Whether a delta computation answered [false]. *)
Definition returns_false {A : Type} (r : result (option A)) : bool :=
  match r with
  | Ok None => true
  | _ => false
  end.

(** The guard shared by the four delta computations. *)
Definition index_guard (st : Activity) (index_curr index_prev : N) : bool :=
  ((index_curr <=? index_prev) || (size (imu_data_buff_ st) <=? index_curr))%N.

(** The start of a session with the synchronizer above: the state after
    [first_arrivals] ([primed]), the sample the synchronizer blends for the
    target time [0.5] ([blended]), the state after the initializing call
    of [UpdatePose] ([seeded]), and the state once a second inertial
    sample, stamped [0.6], has arrived ([warm]). *)
Definition primed : Activity :=
  mkActivity false (mkVector3d 0 0 (-9.81)) Zero3 Zero3
    [imu_sample 0.5 (-9.81)] [odom_at_rest 0; odom_at_rest 1]
    Identity4 Zero3 0 false.

Definition blended : OdomData.t :=
  OdomData.mk 0.5
    (plerp Identity4 Identity4 ((0.5 - 0) / (1 - 0)))
    (vlerp Zero3 Zero3 ((0.5 - 0) / (1 - 0))).

Definition seeded : Activity :=
  mkActivity true (mkVector3d 0 0 (-9.81)) Zero3 Zero3
    [imu_sample 0.5 (-9.81)] [blended]
    (OdomData.pose blended) (OdomData.vel blended) (OdomData.time blended) true.

Definition warm : Activity :=
  mkActivity true (mkVector3d 0 0 (-9.81)) Zero3 Zero3
    [imu_sample 0.5 (-9.81); imu_sample 0.6 (-9.81)] [blended]
    (OdomData.pose blended) (OdomData.vel blended) (OdomData.time blended) true.

(** What a session keeps true of the buffers: the inertial buffer never
    outgrows a deque, and an initialized estimator holds an auxiliary
    sample. *)
Definition buffers_ok (st : Activity) : Prop :=
  (size (imu_data_buff_ st) <= max_size)%N /\
  (initialized_ st = true -> odom_data_buff_ st <> []).

(** ** Further scenarios *)

(** An initialized estimator at rest with three buffered inertial
    samples. *)
Definition crowded : Activity :=
  mkActivity true (mkVector3d 0 0 (-9.81)) Zero3 Zero3
    [imu_sample 0 1; imu_sample 0.05 2; imu_sample 0.1 3]
    [odom_at_rest 0]
    Identity4 Zero3 0 true.

(** Two buffered inertial samples with the same time stamp. *)
Definition duplicate_stamps : Activity :=
  mkActivity true (mkVector3d 0 0 (-9.81)) Zero3 Zero3
    [imu_sample 0 1; imu_sample 0 2]
    [odom_at_rest 0]
    Identity4 Zero3 0 true.

(** Not initialized, two inertial samples stamped [0] and [0.5], and two
    auxiliary samples that both come later, at [1] and [2], so that the
    synchronizer finds no bracket; [checked] is the value of the static
    flag [sensor_inited]. *)
Definition unsynced (checked : bool) : Activity :=
  mkActivity false (mkVector3d 0 0 (-9.81)) Zero3 Zero3
    [imu_sample 0 (-9.81); imu_sample 0.5 (-9.81)]
    [odom_at_rest 1; odom_at_rest 2]
    Identity4 Zero3 0 checked.

(** An initialized estimator with two samples in each buffer. *)
Definition busy : Activity :=
  mkActivity true (mkVector3d 0 0 (-9.81)) Zero3 Zero3
    [imu_sample 0 (-9.81); imu_sample 0.1 (-9.81)]
    [odom_at_rest 0; odom_at_rest 0.1]
    Identity4 Zero3 0 true.

(** What no call but [Init] changes: gravity and the two biases; and the
    static flag, once set, stays set. *)
Definition calibration_kept (st st' : Activity) : Prop :=
  G_ st' = G_ st /\
  angular_vel_bias_ st' = angular_vel_bias_ st /\
  linear_acc_bias_ st' = linear_acc_bias_ st /\
  (sensor_inited st = true -> sensor_inited st' = true).

(** An initialized estimator holds an inertial sample. *)
Definition seeded_imu (st : Activity) : Prop :=
  initialized_ st = true -> imu_data_buff_ st <> [].

(** * Facts about the number and library model *)

Lemma fsqrt_ok a : 0 <= a -> fsqrt a = Ok (sqrt a).
Proof.
  intros H. unfold fsqrt. destruct (Rlt_dec a 0); [lra | reflexivity].
Qed.

Lemma fdiv_ok a b : 0 < b -> fdiv a b = Ok (a / b).
Proof.
  intros H. unfold fdiv. destruct (Req_dec_T b 0); [lra | reflexivity].
Qed.

Lemma half_over s : 0 < s -> 2 * (0.5 / s) * s = 1.
Proof. intros H. replace 0.5 with (/ 2) by lra. field. lra. Qed.

Lemma half_two : 2 * 0.5 = 1.
Proof. lra. Qed.

Lemma squaredNorm_nonneg v : 0 <= squaredNorm v.
Proof. unfold squaredNorm. nra. Qed.

Lemma squaredNorm_zero v : ~ squaredNorm v > 0 -> v = Zero3.
Proof.
  destruct v as [a b c]. unfold squaredNorm, Zero3. cbn [x y z]. intros H.
  assert (a = 0) by nra. assert (b = 0) by nra. assert (c = 0) by nra.
  subst. reflexivity.
Qed.

Lemma qsquaredNorm_pos q :
  0 < qx q \/ 0 < qy q \/ 0 < qz q \/ 0 < qw q -> 0 < qsquaredNorm q.
Proof.
  unfold qsquaredNorm. generalize (qx q) (qy q) (qz q) (qw q).
  intros a b c d H.
  pose proof (Rle_0_sqr a); pose proof (Rle_0_sqr b);
  pose proof (Rle_0_sqr c); pose proof (Rle_0_sqr d). unfold Rsqr in *.
  destruct H as [H | [H | [H | H]]]; nra.
Qed.

Lemma qmul_squaredNorm a b :
  qsquaredNorm (qmul a b) = qsquaredNorm a * qsquaredNorm b.
Proof. unfold qsquaredNorm, qmul, Quaterniond_wxyz. cbn [qx qy qz qw]. ring. Qed.

Lemma qmul_identity q : qmul q (Quaterniond_wxyz 1 0 0 0) = q.
Proof.
  destruct q as [a b c d]. unfold qmul, Quaterniond_wxyz. cbn [qx qy qz qw].
  f_equal; ring.
Qed.

(** The direction of a vector of positive length: the vector over its
    length, a unit vector. *)
Lemma normalized_pos v :
  0 < squaredNorm v ->
  let m := sqrt (squaredNorm v) in
  0 < m /\ norm v = Ok m /\
  normalized v = Ok (mkVector3d (x v / m) (y v / m) (z v / m)) /\
  squaredNorm (mkVector3d (x v / m) (y v / m) (z v / m)) = 1.
Proof.
  intros Hz m.
  assert (Hm : 0 < m) by (apply sqrt_lt_R0; exact Hz).
  assert (Hmm : m * m = squaredNorm v) by (apply sqrt_sqrt; lra).
  split; [exact Hm|]. split; [apply fsqrt_ok; lra|]. split.
  - unfold normalized.
    destruct (Rgt_dec (squaredNorm v) 0) as [_ | Hc]; [|lra].
    rewrite fsqrt_ok by lra. cbn [bind]. fold m. unfold vdiv.
    rewrite !(fdiv_ok _ _ Hm). reflexivity.
  - unfold squaredNorm at 1. cbn [x y z].
    replace (x v / m * (x v / m) + y v / m * (y v / m) + z v / m * (z v / m))
      with (squaredNorm v / (m * m)) by (unfold squaredNorm; field; lra).
    rewrite Hmm. field. lra.
Qed.

Lemma qnormalized_pos q :
  0 < qsquaredNorm q ->
  let n := sqrt (qsquaredNorm q) in
  0 < n /\
  qnormalized q = Ok (mkCoeffs (qx q / n) (qy q / n) (qz q / n) (qw q / n)) /\
  qsquaredNorm (mkCoeffs (qx q / n) (qy q / n) (qz q / n) (qw q / n)) = 1.
Proof.
  intros Hz n.
  assert (Hn : 0 < n) by (apply sqrt_lt_R0; exact Hz).
  assert (Hnn : n * n = qsquaredNorm q) by (apply sqrt_sqrt; lra).
  split; [exact Hn|]. split.
  - unfold qnormalized.
    destruct (Rgt_dec (qsquaredNorm q) 0) as [_ | Hc]; [|lra].
    rewrite fsqrt_ok by lra. cbn [bind]. fold n.
    rewrite !(fdiv_ok _ _ Hn). reflexivity.
  - unfold qsquaredNorm at 1. cbn [qx qy qz qw].
    replace (qx q / n * (qx q / n) + qy q / n * (qy q / n)
             + qz q / n * (qz q / n) + qw q / n * (qw q / n))
      with (qsquaredNorm q / (n * n)) by (unfold qsquaredNorm; field; lra).
    rewrite Hnn. field. lra.
Qed.

(** A quaternion of length one is its own normalization. *)
Lemma qnormalized_unit q : qsquaredNorm q = 1 -> qnormalized q = Ok q.
Proof.
  intros H. assert (Hz : 0 < qsquaredNorm q) by lra.
  destruct (qnormalized_pos q Hz) as (_ & E & _). rewrite E.
  rewrite H, sqrt_1. destruct q as [a b c d]. cbn [qx qy qz qw].
  f_equal. f_equal; field.
Qed.

Lemma toRotationMatrix_is_rotation q :
  qsquaredNorm q = 1 -> is_rotation (toRotationMatrix q).
Proof.
  unfold qsquaredNorm, is_rotation, toRotationMatrix, mmul, transpose,
    determinant, Identity3.
  destruct q as [a b c d]. cbn. intros H. split.
  - f_equal; nsatz.
  - nsatz.
Qed.

(** After the root [sqrt a] has been taken and [0.5 / sqrt a] formed, name
    the two numbers and keep only the equations that tie them. *)
Ltac pivot_q :=
  match goal with |- context [fdiv 0.5 (sqrt ?a)] =>
    let Hs := fresh "Hs" in let Hss := fresh "Hss" in
    let HT := fresh "HT" in let Hh := fresh "Hh" in
    assert (Hs : 0 < sqrt a) by (apply sqrt_lt_R0; lra);
    assert (Hss : sqrt a * sqrt a = a) by (apply sqrt_sqrt; lra);
    rewrite (fdiv_ok _ _ Hs); cbn [bind];
    pose proof (half_over _ Hs) as HT;
    pose proof half_two as Hh;
    let T := fresh "T" in set (T := 0.5 / sqrt a) in *; clearbody T;
    let s := fresh "s" in set (s := sqrt a) in *; clearbody s;
    let hf := fresh "hf" in set (hf := 0.5) in *; clearbody hf
  end.

Ltac pick_pivot mat :=
  destruct (Rgt_dec (coeff mat 1 1) (coeff mat 0 0));
  match goal with |- context [Rgt_dec (coeff mat 2 2) ?c] =>
    destruct (Rgt_dec (coeff mat 2 2) c) end;
  cbn [coeff Nat.modulo Nat.add Nat.divmod fst snd Nat.sub
       m00 m01 m02 m10 m11 m12 m20 m21 m22] in *.

(** The conversion of a matrix never divides by zero and never yields the
    zero quaternion, whatever the matrix. *)
Lemma Quaterniond_of_matrix_total mat :
  exists q, Quaterniond_of_matrix mat = Ok q /\ 0 < qsquaredNorm q.
Proof.
  unfold Quaterniond_of_matrix.
  destruct (Rgt_dec (trace mat) 0) as [Ht | Ht].
  - rewrite fsqrt_ok by lra. cbn [bind].
    assert (Hs : 0 < sqrt (trace mat + 1)) by (apply sqrt_lt_R0; lra).
    rewrite (fdiv_ok _ _ Hs). cbn [bind].
    eexists; split; [reflexivity|].
    apply qsquaredNorm_pos; cbn [qx qy qz qw]. lra.
  - unfold trace in Ht. pick_pivot mat;
    (rewrite fsqrt_ok by lra); cbn [bind];
    match goal with |- context [fdiv 0.5 (sqrt ?a)] =>
      assert (Hs : 0 < sqrt a) by (apply sqrt_lt_R0; lra) end;
    rewrite (fdiv_ok _ _ Hs); cbn [bind];
    (eexists; split; [reflexivity|]);
    apply qsquaredNorm_pos; unfold set_coeff, set_w; cbn [qx qy qz qw]; lra.
Qed.

(** On a rotation matrix the conversion yields a unit quaternion, and
    converting back gives the same matrix. *)
Lemma Quaterniond_of_rotation mat :
  is_rotation mat ->
  exists q, Quaterniond_of_matrix mat = Ok q /\ qsquaredNorm q = 1 /\
            toRotationMatrix q = mat.
Proof.
  destruct mat as [a b c d e f g h i].
  unfold is_rotation, mmul, transpose, determinant, Identity3. cbn.
  intros [Ho Hd]. injection Ho as H00 H01 H02 H10 H11 H12 H20 H21 H22.
  clear H10 H20 H21.
  unfold Quaterniond_of_matrix, trace. cbn [m00 m11 m22].
  destruct (Rgt_dec (a + e + i) 0) as [Ht | Ht].
  - rewrite fsqrt_ok by lra. cbn [bind].
    pivot_q. cbn [coeff] in *.
    eexists; split; [reflexivity|]. clear Ht Hs.
    unfold qsquaredNorm, toRotationMatrix; cbn [qx qy qz qw].
    split; [nsatz | f_equal; nsatz].
  - pick_pivot (mkMatrix3d a b c d e f g h i);
    (rewrite fsqrt_ok by lra); cbn [bind];
    pivot_q;
    (eexists; split; [reflexivity|]);
    repeat match goal with H : ~ _ |- _ => clear H
                      | H : _ > _ |- _ => clear H
                      | H : _ < _ |- _ => clear H end;
    unfold qsquaredNorm, toRotationMatrix, set_coeff, set_w;
    cbn [qx qy qz qw]; (split; [nsatz | f_equal; nsatz]).
Qed.

(** ** Checks on concrete inputs *)

(** An empty buffer: [size() - 1] wraps around to [2^64 - 1], and the
    guard of [GetAngularDelta] rejects the pair. *)
Example size_t_sub_wraps : size_t_sub 0 1 = 18446744073709551615%N.
Proof. reflexivity. Qed.

Example GetAngularDelta_empty_buffer :
  GetAngularDelta fresh (size_t_sub (size (imu_data_buff_ fresh)) 1) 0 = Ok None.
Proof. reflexivity. Qed.

Lemma sqrt_4 : sqrt 4 = 2.
Proof.
  replace 4 with (2 * 2) by lra. apply sqrt_square. lra.
Qed.

(** The identity matrix takes the first branch of the conversion. *)
Example Quaterniond_of_Identity3 :
  Quaterniond_of_matrix Identity3 = Ok (Quaterniond_wxyz 1 0 0 0).
Proof.
  unfold Quaterniond_of_matrix, trace, Identity3.
  cbn [m00 m11 m22 coeff m01 m02 m10 m12 m20 m21].
  destruct (Rgt_dec (1 + 1 + 1) 0) as [_ | H]; [|lra].
  replace (1 + 1 + 1 + 1) with 4 by lra.
  rewrite fsqrt_ok by lra. cbn [bind]. rewrite sqrt_4.
  rewrite fdiv_ok by lra. cbn [bind]. unfold Quaterniond_wxyz.
  replace (0.5 / 2) with 0.25 by lra. do 2 f_equal; lra.
Qed.

(** A half turn about z has trace [-1] and takes the second branch with
    pivot [i = 2]. *)
Example Quaterniond_of_half_turn :
  Quaterniond_of_matrix (mkMatrix3d (-1) 0 0  0 (-1) 0  0 0 1)
  = Ok (mkCoeffs 0 0 1 0).
Proof.
  unfold Quaterniond_of_matrix, trace.
  cbn [m00 m11 m22 coeff m01 m02 m10 m12 m20 m21].
  destruct (Rgt_dec (-1 + -1 + 1) 0) as [H | _]; [lra|].
  destruct (Rgt_dec (-1) (-1)) as [H | _]; [lra|].
  cbn [coeff m00 m11 m22].
  destruct (Rgt_dec 1 (-1)) as [_ | H]; [|lra].
  cbn [coeff Nat.modulo Nat.add Nat.divmod fst snd Nat.sub
       m00 m01 m02 m10 m11 m12 m20 m21 m22].
  replace (1 - -1 - -1 + 1) with 4 by lra.
  rewrite fsqrt_ok by lra. cbn [bind]. rewrite sqrt_4.
  rewrite fdiv_ok by lra. cbn [bind]. unfold set_coeff, set_w.
  cbn [qx qy qz qw]. replace (0.5 / 2) with 0.25 by lra. do 2 f_equal; lra.
Qed.

(** A quarter of a second at [2 m/s] with a velocity delta of [4 m/s]:
    the position advances by [0.25 * 2 + 0.5 * 0.25 * 4 = 1]. *)
Example UpdatePosition_quarter_second :
  let st := set_vel_ (end_to_end 0) (mkVector3d 2 0 0) in
  let st' := UpdatePosition 0.25 (mkVector3d 4 0 0) st in
  block31 (pose_ st') = mkVector3d 1 0 0 /\ vel_ st' = mkVector3d 6 0 0.
Proof.
  cbv zeta. unfold UpdatePosition, vadd, vscale, block31, set_block31. cbn.
  split; f_equal; lra.
Qed.

(** * The attitude integrator *)

Lemma block33_set_block33 p r : block33 (set_block33 p r) = r.
Proof. destruct r; reflexivity. Qed.

Lemma set_block33_block33 p : set_block33 p (block33 p) = p.
Proof. destruct p; reflexivity. Qed.

Lemma set_pose_same st : set_pose_ st (pose_ st) = st.
Proof. destruct st; reflexivity. Qed.

Lemma UpdateOrientation_dq_pos angular_delta :
  0 < squaredNorm angular_delta ->
  let m := sqrt (squaredNorm angular_delta) in
  UpdateOrientation_dq angular_delta =
    Ok (Quaterniond_wxyz (cos (m / 2))
          (sin (m / 2) * (x angular_delta / m))
          (sin (m / 2) * (y angular_delta / m))
          (sin (m / 2) * (z angular_delta / m))).
Proof.
  intros Hz m. destruct (normalized_pos _ Hz) as (_ & En & Ed & _).
  unfold UpdateOrientation_dq. rewrite En, Ed. cbn [bind x y z]. fold m.
  replace (m / 2.0) with (m / 2) by lra. reflexivity.
Qed.

Lemma UpdateOrientation_dq_zero :
  UpdateOrientation_dq Zero3 = Ok (Quaterniond_wxyz 1 0 0 0).
Proof.
  unfold UpdateOrientation_dq, norm, normalized.
  assert (E : squaredNorm Zero3 = 0) by (unfold squaredNorm, Zero3; cbn; ring).
  rewrite E. destruct (Rgt_dec 0 0) as [H | _]; [lra|].
  rewrite fsqrt_ok by lra. cbn [bind]. rewrite sqrt_0.
  replace (0 / 2.0) with 0 by lra. rewrite cos_0, sin_0.
  unfold Zero3. cbn [x y z]. rewrite Rmult_0_l. reflexivity.
Qed.

(** The incremental quaternion exists and has length one for every
    angular delta. *)
Lemma UpdateOrientation_dq_unit angular_delta :
  exists dq, UpdateOrientation_dq angular_delta = Ok dq /\ qsquaredNorm dq = 1.
Proof.
  destruct (Rgt_dec (squaredNorm angular_delta) 0) as [Hz | Hz].
  - rewrite (UpdateOrientation_dq_pos _ Hz).
    destruct (normalized_pos _ Hz) as (Hm & _ & _ & Hu).
    eexists; split; [reflexivity|].
    set (m := sqrt (squaredNorm angular_delta)) in *.
    unfold qsquaredNorm, Quaterniond_wxyz. cbn [qx qy qz qw].
    unfold squaredNorm in Hu. cbn [x y z] in Hu.
    pose proof (sin2_cos2 (m / 2)) as Hsc. unfold Rsqr in Hsc.
    set (ux := x angular_delta / m) in *. set (uy := y angular_delta / m) in *.
    set (uz := z angular_delta / m) in *.
    transitivity (sin (m / 2) * sin (m / 2) * (ux * ux + uy * uy + uz * uz)
                  + cos (m / 2) * cos (m / 2)); [ring|].
    rewrite Hu. lra.
  - rewrite (squaredNorm_zero _ Hz), UpdateOrientation_dq_zero.
    eexists; split; [reflexivity|].
    unfold qsquaredNorm, Quaterniond_wxyz. cbn [qx qy qz qw]. ring.
Qed.

(** What [UpdateOrientation] does once [dq] is known: it never faults,
    the product is never the zero quaternion, and what it commits is the
    rotation matrix of the product scaled to length one. *)
Lemma UpdateOrientation_with_dq angular_delta st dq :
  UpdateOrientation_dq angular_delta = Ok dq ->
  qsquaredNorm dq = 1 ->
  exists q_old, Quaterniond_of_matrix (block33 (pose_ st)) = Ok q_old /\
  let q := qmul q_old dq in
  let n := sqrt (qsquaredNorm q) in
  let qn := mkCoeffs (qx q / n) (qy q / n) (qz q / n) (qw q / n) in
  0 < qsquaredNorm q_old /\ 0 < n /\ qnormalized q = Ok qn /\
  qsquaredNorm qn = 1 /\
  UpdateOrientation angular_delta st =
    Ok (set_pose_ st (set_block33 (pose_ st) (toRotationMatrix qn)),
        toRotationMatrix qn, block33 (pose_ st)).
Proof.
  intros Edq Hdq.
  destruct (Quaterniond_of_matrix_total (block33 (pose_ st))) as (q_old & Eq & Hq).
  exists q_old. split; [exact Eq|]. intros q n qn.
  assert (Hz : 0 < qsquaredNorm q).
  { unfold q. rewrite qmul_squaredNorm, Hdq. lra. }
  destruct (qnormalized_pos q Hz) as (Hn & En & Hu).
  repeat split; try assumption.
  unfold UpdateOrientation. rewrite Edq, Eq. cbn [bind]. fold q.
  rewrite En. cbn [bind]. fold n qn.
  cbn [set_pose_ pose_]. rewrite block33_set_block33. reflexivity.
Qed.

(** ** C1 *)

(** C1.  For an angular delta of nonzero magnitude [m], with direction
    [d] the delta over [m] (a unit vector), [UpdateOrientation] builds
    [dq = (cos (m/2), sin (m/2) * d)], multiplies the pose's quaternion by
    it on the right, scales the product to length one, writes the rotation
    matrix of that unit quaternion into the rotation block, and returns it
    as [R_curr] together with the block as it was before as [R_prev]. *)
Theorem UpdateOrientation_exponential_map :
  forall (st : Activity) (angular_delta : Vector3d) (m : R),
    norm angular_delta = Ok m -> m <> 0 ->
    let d := mkVector3d (x angular_delta / m) (y angular_delta / m)
                        (z angular_delta / m) in
    let dq := Quaterniond_wxyz (cos (m / 2)) (sin (m / 2) * x d)
                               (sin (m / 2) * y d) (sin (m / 2) * z d) in
    exists q_old st' R_curr R_prev,
      Quaterniond_of_matrix (block33 (pose_ st)) = Ok q_old /\
      let q_new := qmul q_old dq in
      let n := sqrt (qsquaredNorm q_new) in
      let q_unit := mkCoeffs (qx q_new / n) (qy q_new / n)
                             (qz q_new / n) (qw q_new / n) in
      squaredNorm d = 1 /\
      UpdateOrientation_dq angular_delta = Ok dq /\
      0 < n /\ qnormalized q_new = Ok q_unit /\ qsquaredNorm q_unit = 1 /\
      UpdateOrientation angular_delta st = Ok (st', R_curr, R_prev) /\
      R_prev = block33 (pose_ st) /\
      R_curr = toRotationMatrix q_unit /\
      block33 (pose_ st') = toRotationMatrix q_unit /\
      st' = set_pose_ st (set_block33 (pose_ st) (toRotationMatrix q_unit)).
Proof.
  intros st angular_delta m En Hm d dq.
  assert (Hz : 0 < squaredNorm angular_delta).
  { destruct (Rle_lt_or_eq_dec _ _ (squaredNorm_nonneg angular_delta))
      as [H | H]; [exact H|].
    exfalso. apply Hm. unfold norm in En. rewrite <- H in En.
    rewrite fsqrt_ok in En by lra. rewrite sqrt_0 in En. congruence. }
  destruct (normalized_pos _ Hz) as (_ & En' & _ & Hu).
  assert (Em : m = sqrt (squaredNorm angular_delta)) by congruence.
  rewrite <- Em in Hu.
  pose proof (UpdateOrientation_dq_pos _ Hz) as Edq. cbv zeta in Edq.
  rewrite <- Em in Edq.
  assert (Hdq : qsquaredNorm dq = 1).
  { destruct (UpdateOrientation_dq_unit angular_delta) as (dq' & E' & H').
    rewrite Edq in E'. injection E' as E'. rewrite <- E' in H'. exact H'. }
  destruct (UpdateOrientation_with_dq angular_delta st dq Edq Hdq)
    as (q_old & Eq & _ & Hn & Eqn & Hqn & EU).
  exists q_old. eexists. eexists. eexists.
  split; [exact Eq|]. cbv zeta.
  split; [exact Hu|]. split; [exact Edq|]. split; [exact Hn|].
  split; [exact Eqn|]. split; [exact Hqn|]. split; [exact EU|].
  split; [reflexivity|]. split; [reflexivity|]. split; [|reflexivity].
  cbn [set_pose_ pose_]. apply block33_set_block33.
Qed.

Lemma norm_unit_z : norm (mkVector3d 0 0 1) = Ok 1.
Proof.
  unfold norm, squaredNorm. cbn [x y z].
  replace (0 * 0 + 0 * 0 + 1 * 1) with 1 by ring.
  rewrite fsqrt_ok by lra. rewrite sqrt_1. reflexivity.
Qed.

(** The delta [(0, 0, 1)] has magnitude one. *)
Lemma UpdateOrientation_exponential_map_witness :
  norm (mkVector3d 0 0 1) = Ok 1 /\ 1 <> 0 /\
  exists q_old st' R_curr R_prev,
    Quaterniond_of_matrix (block33 (pose_ (end_to_end 0))) = Ok q_old /\
    UpdateOrientation_dq (mkVector3d 0 0 1)
      = Ok (Quaterniond_wxyz (cos (1 / 2)) (sin (1 / 2) * (0 / 1))
              (sin (1 / 2) * (0 / 1)) (sin (1 / 2) * (1 / 1))) /\
    UpdateOrientation (mkVector3d 0 0 1) (end_to_end 0)
      = Ok (st', R_curr, R_prev) /\
    R_prev = block33 (pose_ (end_to_end 0)).
Proof.
  assert (H1 : (1 <> 0)%R) by lra.
  split; [exact norm_unit_z|]. split; [exact H1|].
  destruct (UpdateOrientation_exponential_map (end_to_end 0)
              (mkVector3d 0 0 1) 1 norm_unit_z H1)
    as (q_old & st' & R_curr & R_prev & Eq & _ & Edq & _ & _ & _ & EU & EP & _).
  exists q_old, st', R_curr, R_prev. repeat split; assumption.
Defined.

(** ** C4 *)

(** C4.  With the zero angular delta the incremental quaternion is the
    identity [(1, 0, 0, 0)], the call completes (no division by zero, no
    root of a negative number), and, the stored rotation block being a
    rotation matrix, the state is left as it was and both matrices handed
    back are that block. *)
Theorem UpdateOrientation_zero_delta :
  forall st : Activity,
    is_rotation (block33 (pose_ st)) ->
    UpdateOrientation_dq (mkVector3d 0 0 0) = Ok (Quaterniond_wxyz 1 0 0 0) /\
    UpdateOrientation (mkVector3d 0 0 0) st
      = Ok (st, block33 (pose_ st), block33 (pose_ st)).
Proof.
  intros st Hrot. split; [exact UpdateOrientation_dq_zero|].
  destruct (Quaterniond_of_rotation _ Hrot) as (q & Eq & Hu & Eback).
  unfold UpdateOrientation. fold Zero3. rewrite UpdateOrientation_dq_zero, Eq.
  cbn [bind]. rewrite qmul_identity, (qnormalized_unit _ Hu). cbn [bind].
  rewrite Eback, set_block33_block33, set_pose_same. reflexivity.
Qed.

Lemma Identity3_is_rotation : is_rotation Identity3.
Proof.
  unfold is_rotation, mmul, transpose, determinant, Identity3. cbn.
  split; [f_equal; ring | ring].
Qed.

(** The identity pose of the end-to-end scenario. *)
Lemma UpdateOrientation_zero_delta_witness :
  is_rotation (block33 (pose_ (end_to_end 0))) /\
  UpdateOrientation (mkVector3d 0 0 0) (end_to_end 0)
    = Ok (end_to_end 0, Identity3, Identity3).
Proof.
  split; [exact Identity3_is_rotation|].
  apply (UpdateOrientation_zero_delta (end_to_end 0)).
  exact Identity3_is_rotation.
Defined.

(** ** C6 *)

(** C6.  Whatever the state and the angular delta, [UpdateOrientation]
    completes and the rotation block it leaves in the pose is orthonormal
    (its transpose times itself is the identity) with determinant one. *)
Theorem UpdateOrientation_orthonormal :
  forall (st : Activity) (angular_delta : Vector3d),
    exists st' R_curr R_prev,
      UpdateOrientation angular_delta st = Ok (st', R_curr, R_prev) /\
      mmul (transpose (block33 (pose_ st'))) (block33 (pose_ st')) = Identity3 /\
      determinant (block33 (pose_ st')) = 1 /\
      R_curr = block33 (pose_ st').
Proof.
  intros st angular_delta.
  destruct (UpdateOrientation_dq_unit angular_delta) as (dq & Edq & Hdq).
  destruct (UpdateOrientation_with_dq angular_delta st dq Edq Hdq)
    as (q_old & _ & _ & _ & _ & Hqn & EU).
  eexists. eexists. eexists. split; [exact EU|].
  cbn [set_pose_ pose_]. rewrite block33_set_block33.
  destruct (toRotationMatrix_is_rotation _ Hqn) as [Ho Hd].
  repeat split; assumption.
Qed.

(** * The delta computations *)

Lemma index_guard_false st index_curr index_prev :
  (index_prev < index_curr)%N ->
  (index_curr < size (imu_data_buff_ st))%N ->
  index_guard st index_curr index_prev = false.
Proof.
  intros H1 H2. unfold index_guard.
  apply orb_false_intro; apply N.leb_gt; assumption.
Qed.

Lemma at_in_range {A : Type} (d : deque A) (i : N) :
  (i < size d)%N -> exists a, at_ d i = Ok a /\ nth_error d (N.to_nat i) = Some a.
Proof.
  intros H. unfold at_, size in *.
  destruct (nth_error d (N.to_nat i)) as [a |] eqn:E.
  - exists a. split; reflexivity.
  - apply nth_error_None in E. lia.
Qed.

(** Both computations on a pair of indices the guard lets through. *)
Lemma deltas_in_range st index_curr index_prev R_curr R_prev :
  (index_prev < index_curr)%N ->
  (index_curr < size (imu_data_buff_ st))%N ->
  exists curr prev,
    at_ (imu_data_buff_ st) index_curr = Ok curr /\
    at_ (imu_data_buff_ st) index_prev = Ok prev /\
    let dt := IMUData.time curr - IMUData.time prev in
    GetAngularDelta st index_curr index_prev =
      Ok (Some
        (vscale (0.5 * dt)
           (vadd (vsub (IMUData.angular_velocity curr) (angular_vel_bias_ st))
                 (vsub (IMUData.angular_velocity prev) (angular_vel_bias_ st)))))
    /\
    GetVelocityDelta st index_curr index_prev R_curr R_prev =
      Ok (Some
        (dt,
         vscale (0.5 * dt)
           (vadd
              (vsub (mulv R_curr (vsub (IMUData.linear_acceleration curr)
                                       (linear_acc_bias_ st))) (G_ st))
              (vsub (mulv R_prev (vsub (IMUData.linear_acceleration prev)
                                       (linear_acc_bias_ st))) (G_ st))))).
Proof.
  intros H1 H2.
  destruct (at_in_range (imu_data_buff_ st) index_curr H2) as (curr & Ec & _).
  assert (H3 : (index_prev < size (imu_data_buff_ st))%N) by lia.
  destruct (at_in_range (imu_data_buff_ st) index_prev H3) as (prev & Ep & _).
  pose proof (index_guard_false st _ _ H1 H2) as Hg. unfold index_guard in Hg.
  exists curr, prev. split; [exact Ec|]. split; [exact Ep|]. cbv zeta.
  unfold GetAngularDelta, GetVelocityDelta. rewrite Hg, Ec, Ep.
  split; reflexivity.
Qed.

Lemma GetAngularDelta_false st index_curr index_prev :
  returns_false (GetAngularDelta st index_curr index_prev)
  = index_guard st index_curr index_prev.
Proof.
  destruct (index_guard st index_curr index_prev) eqn:Hg.
  - unfold GetAngularDelta. unfold index_guard in Hg. rewrite Hg. reflexivity.
  - unfold index_guard in Hg. apply orb_false_elim in Hg as [H1 H2].
    apply N.leb_gt in H1, H2.
    destruct (deltas_in_range st _ _ Identity3 Identity3 H1 H2)
      as (c & p & _ & _ & E & _).
    rewrite E. reflexivity.
Qed.

Lemma GetVelocityDelta_false st index_curr index_prev R_curr R_prev :
  returns_false (GetVelocityDelta st index_curr index_prev R_curr R_prev)
  = index_guard st index_curr index_prev.
Proof.
  destruct (index_guard st index_curr index_prev) eqn:Hg.
  - unfold GetVelocityDelta. unfold index_guard in Hg. rewrite Hg. reflexivity.
  - unfold index_guard in Hg. apply orb_false_elim in Hg as [H1 H2].
    apply N.leb_gt in H1, H2.
    destruct (deltas_in_range st _ _ R_curr R_prev H1 H2)
      as (c & p & _ & _ & _ & E).
    rewrite E. reflexivity.
Qed.

(** ** C2 *)

(** C2.  For indices with [index_prev < index_curr < size] both samples
    exist, [GetAngularDelta] answers true with
    [0.5 * dt * ((w_curr - bias) + (w_prev - bias))] and [GetVelocityDelta]
    answers true with [dt] and
    [0.5 * dt * ((R_curr * (f_curr - bias) - G) + (R_prev * (f_prev - bias) - G))],
    where [dt = t_curr - t_prev]. *)
Theorem deltas_mid_value :
  forall (st : Activity) (index_curr index_prev : N) (R_curr R_prev : Matrix3d),
    (index_prev < index_curr)%N ->
    (index_curr < size (imu_data_buff_ st))%N ->
    exists curr prev,
      nth_error (imu_data_buff_ st) (N.to_nat index_curr) = Some curr /\
      nth_error (imu_data_buff_ st) (N.to_nat index_prev) = Some prev /\
      let dt := IMUData.time curr - IMUData.time prev in
      let w_curr := IMUData.angular_velocity curr in
      let w_prev := IMUData.angular_velocity prev in
      let f_curr := IMUData.linear_acceleration curr in
      let f_prev := IMUData.linear_acceleration prev in
      GetAngularDelta st index_curr index_prev =
        Ok (Some (vscale (0.5 * dt)
                    (vadd (vsub w_curr (angular_vel_bias_ st))
                          (vsub w_prev (angular_vel_bias_ st))))) /\
      GetVelocityDelta st index_curr index_prev R_curr R_prev =
        Ok (Some (dt,
                  vscale (0.5 * dt)
                    (vadd (vsub (mulv R_curr (vsub f_curr (linear_acc_bias_ st)))
                                (G_ st))
                          (vsub (mulv R_prev (vsub f_prev (linear_acc_bias_ st)))
                                (G_ st))))).
Proof.
  intros st index_curr index_prev R_curr R_prev H1 H2.
  destruct (deltas_in_range st _ _ R_curr R_prev H1 H2)
    as (curr & prev & Ec & Ep & EA & EV).
  exists curr, prev. unfold at_ in Ec, Ep.
  destruct (nth_error (imu_data_buff_ st) (N.to_nat index_curr)); [|discriminate].
  destruct (nth_error (imu_data_buff_ st) (N.to_nat index_prev)); [|discriminate].
  injection Ec as ->. injection Ep as ->.
  repeat split; assumption.
Qed.

(** The two samples of the end-to-end scenario, indices 1 and 0. *)
Lemma deltas_mid_value_witness :
  exists curr prev,
    nth_error (imu_data_buff_ (end_to_end 0)) 1 = Some curr /\
    nth_error (imu_data_buff_ (end_to_end 0)) 0 = Some prev /\
    GetAngularDelta (end_to_end 0) 1 0 =
      Ok (Some (vscale (0.5 * (IMUData.time curr - IMUData.time prev))
                  (vadd (vsub (IMUData.angular_velocity curr) Zero3)
                        (vsub (IMUData.angular_velocity prev) Zero3)))).
Proof.
  destruct (deltas_mid_value (end_to_end 0) 1 0 Identity3 Identity3)
    as (curr & prev & Ec & Ep & EA & _).
  - reflexivity.
  - reflexivity.
  - exists curr, prev. repeat split; assumption.
Defined.

(** ** C5 *)

(** C5, amended.  [GetAngularDelta] and [GetVelocityDelta] answer false
    exactly when [index_curr <= index_prev] or [size <= index_curr]; the
    time stamps are not compared.  For two samples at indices
    [index_prev < index_curr] both answer true with
    [delta_t = t_curr - t_prev], whatever the order of the two time
    stamps. *)
Theorem deltas_fail_on_indices_only :
  forall (st : Activity) (index_curr index_prev : N) (R_curr R_prev : Matrix3d),
    returns_false (GetAngularDelta st index_curr index_prev)
      = ((index_curr <=? index_prev)
         || (size (imu_data_buff_ st) <=? index_curr))%N /\
    returns_false (GetVelocityDelta st index_curr index_prev R_curr R_prev)
      = ((index_curr <=? index_prev)
         || (size (imu_data_buff_ st) <=? index_curr))%N /\
    forall curr prev : IMUData.t,
      nth_error (imu_data_buff_ st) (N.to_nat index_curr) = Some curr ->
      nth_error (imu_data_buff_ st) (N.to_nat index_prev) = Some prev ->
      (index_prev < index_curr)%N ->
      exists angular_delta velocity_delta,
        GetAngularDelta st index_curr index_prev = Ok (Some angular_delta) /\
        GetVelocityDelta st index_curr index_prev R_curr R_prev
          = Ok (Some (IMUData.time curr - IMUData.time prev, velocity_delta)).
Proof.
  intros st index_curr index_prev R_curr R_prev.
  split; [apply GetAngularDelta_false|]. split; [apply GetVelocityDelta_false|].
  intros curr prev Ec Ep H1.
  assert (H2 : (index_curr < size (imu_data_buff_ st))%N).
  { unfold size. assert (nth_error (imu_data_buff_ st) (N.to_nat index_curr) <> None)
      by congruence.
    apply nth_error_Some in H. lia. }
  destruct (deltas_in_range st _ _ R_curr R_prev H1 H2)
    as (c & p & Ec' & Ep' & EA & EV).
  unfold at_ in Ec', Ep'. rewrite Ec in Ec'. rewrite Ep in Ep'.
  injection Ec' as <-. injection Ep' as <-.
  eexists. eexists. split; [exact EA | exact EV].
Qed.

(** The two samples of [out_of_order], indices 1 and 0: the step is
    [0 - 1]. *)
Lemma deltas_fail_on_indices_only_witness :
  exists angular_delta velocity_delta,
    GetAngularDelta out_of_order 1 0 = Ok (Some angular_delta) /\
    GetVelocityDelta out_of_order 1 0 Identity3 Identity3
      = Ok (Some (0 - 1, velocity_delta)).
Proof.
  apply (proj2 (proj2 (deltas_fail_on_indices_only out_of_order 1 0
                         Identity3 Identity3))
           (imu_sample 0 (-9.81)) (imu_sample 1 (-9.81))).
  - reflexivity.
  - reflexivity.
  - reflexivity.
Defined.

(** C5 as stated fails: the current sample is stamped [0], the previous
    one [1], and both computations answer true. *)
Lemma deltas_accept_out_of_order :
  exists curr prev,
    nth_error (imu_data_buff_ out_of_order) 1 = Some curr /\
    nth_error (imu_data_buff_ out_of_order) 0 = Some prev /\
    IMUData.time curr <= IMUData.time prev /\
    returns_false (GetAngularDelta out_of_order 1 0) = false /\
    returns_false (GetVelocityDelta out_of_order 1 0 Identity3 Identity3) = false.
Proof.
  exists (imu_sample 0 (-9.81)), (imu_sample 1 (-9.81)).
  split; [reflexivity|]. split; [reflexivity|].
  split; [cbn [imu_sample IMUData.time]; lra|].
  split; reflexivity.
Qed.

(** * The velocity and position integrator *)

(** ** C3 *)

(** C3.  [UpdatePosition] sets the translation block to
    [p + delta_t * v + 0.5 * delta_t * velocity_delta] with [v] the velocity
    before the call, sets the velocity to [v + velocity_delta], and leaves
    the rotation block, the last row of the pose and every other member as
    they were. *)
Theorem UpdatePosition_uses_old_velocity :
  forall (st : Activity) (delta_t : R) (velocity_delta : Vector3d),
    let p := block31 (pose_ st) in
    let v := vel_ st in
    let st' := UpdatePosition delta_t velocity_delta st in
    block31 (pose_ st') =
      mkVector3d (x p + delta_t * x v + 0.5 * delta_t * x velocity_delta)
                 (y p + delta_t * y v + 0.5 * delta_t * y velocity_delta)
                 (z p + delta_t * z v + 0.5 * delta_t * z velocity_delta) /\
    vel_ st' = mkVector3d (x v + x velocity_delta) (y v + y velocity_delta)
                          (z v + z velocity_delta) /\
    block33 (pose_ st') = block33 (pose_ st) /\
    row3 (pose_ st') = row3 (pose_ st) /\
    initialized_ st' = initialized_ st /\
    init_time_ st' = init_time_ st /\
    G_ st' = G_ st /\
    angular_vel_bias_ st' = angular_vel_bias_ st /\
    linear_acc_bias_ st' = linear_acc_bias_ st /\
    imu_data_buff_ st' = imu_data_buff_ st /\
    odom_data_buff_ st' = odom_data_buff_ st /\
    sensor_inited st' = sensor_inited st.
Proof.
  intros st delta_t velocity_delta p v st'.
  split.
  - unfold st', UpdatePosition, p, v, vadd, vscale, block31, set_block31.
    cbn. f_equal; ring.
  - repeat split; reflexivity.
Qed.

(** * The cycle *)

Lemma back_last {A : Type} (d : deque A) (a : A) : back (d ++ [a]) = Ok a.
Proof. unfold back. rewrite rev_app_distr. reflexivity. Qed.

Lemma back_nonempty {A : Type} (d : deque A) :
  d <> [] -> exists a, back d = Ok a.
Proof.
  intros H. destruct (exists_last H) as (d' & a & ->).
  exists a. apply back_last.
Qed.

Lemma size_t_sub_one n :
  (1 <= n)%N -> (n <= max_size)%N -> size_t_sub n 1 = (n - 1)%N.
Proof.
  intros H1 H2. unfold size_t_sub, SIZE_MODULUS, max_size in *.
  rewrite (N.mod_small 1) by (apply N.ltb_lt; reflexivity).
  replace (n + 2 ^ 64 - 1)%N with (n - 1 + 1 * 2 ^ 64)%N by lia.
  rewrite N.Div0.mod_add. apply N.mod_small.
  assert (2 ^ 63 - 1 < 2 ^ 64)%N by (apply N.ltb_lt; reflexivity). lia.
Qed.

(** [UpdateOrientation] writes the rotation block and nothing else. *)
Lemma UpdateOrientation_frame angular_delta st st1 R_curr R_prev :
  UpdateOrientation angular_delta st = Ok (st1, R_curr, R_prev) ->
  st1 = set_pose_ st (set_block33 (pose_ st) R_curr) /\
  R_prev = block33 (pose_ st).
Proof.
  unfold UpdateOrientation.
  destruct (UpdateOrientation_dq angular_delta); [|discriminate].
  destruct (Quaterniond_of_matrix _); [|discriminate]. cbn [bind].
  destruct (qnormalized _); [|discriminate]. cbn [bind set_pose_ pose_].
  rewrite block33_set_block33. intros E. injection E as <- <- <-.
  split; reflexivity.
Qed.

Lemma UpdateOrientation_total angular_delta st :
  exists R_curr,
    UpdateOrientation angular_delta st =
      Ok (set_pose_ st (set_block33 (pose_ st) R_curr), R_curr,
          block33 (pose_ st)).
Proof.
  destruct (UpdateOrientation_dq_unit angular_delta) as (dq & Edq & Hdq).
  destruct (UpdateOrientation_with_dq angular_delta st dq Edq Hdq)
    as (q_old & _ & _ & _ & _ & _ & EU).
  eexists. exact EU.
Qed.

(** The zero delta leaves a state whose rotation block is a rotation as
    it is. *)
Lemma UpdateOrientation_Zero3 st :
  is_rotation (block33 (pose_ st)) ->
  UpdateOrientation Zero3 st = Ok (st, block33 (pose_ st), block33 (pose_ st)).
Proof.
  intros Hrot.
  destruct (Quaterniond_of_rotation _ Hrot) as (q & Eq & Hu & Eback).
  unfold UpdateOrientation. rewrite UpdateOrientation_dq_zero, Eq.
  cbn [bind]. rewrite qmul_identity, (qnormalized_unit _ Hu). cbn [bind].
  rewrite Eback, set_block33_block33, set_pose_same. reflexivity.
Qed.

(** One integration step, from the results of its five calls. *)
Lemma UpdatePose_integrate_eval st imu_data odom_data angular_delta st1
    R_curr R_prev delta_t velocity_delta :
  back (imu_data_buff_ st) = Ok imu_data ->
  GetAngularDelta st (size_t_sub (size (imu_data_buff_ st)) 1) 0
    = Ok (Some angular_delta) ->
  UpdateOrientation angular_delta st = Ok (st1, R_curr, R_prev) ->
  GetVelocityDelta st1 (size_t_sub (size (imu_data_buff_ st)) 1) 0 R_curr R_prev
    = Ok (Some (delta_t, velocity_delta)) ->
  back (odom_data_buff_ st1) = Ok odom_data ->
  UpdatePose_integrate st =
    Ok (set_odom_data_buff_
          (set_imu_data_buff_ (UpdatePosition delta_t velocity_delta st1)
             [imu_data]) [odom_data], true).
Proof.
  intros Eb EA EU EV Eo. unfold UpdatePose_integrate.
  rewrite Eb. cbn [bind]. rewrite EA. cbn [bind]. rewrite EU. cbn [bind].
  rewrite EV. cbn [bind].
  cbn [UpdatePosition set_imu_data_buff_ set_odom_data_buff_ set_pose_ set_vel_
       odom_data_buff_ imu_data_buff_ app].
  rewrite Eo. reflexivity.
Qed.

(** With two inertial samples or more and an auxiliary sample at hand,
    the integration step goes through. *)
Lemma UpdatePose_integrate_ok st :
  (2 <= size (imu_data_buff_ st))%N ->
  (size (imu_data_buff_ st) <= max_size)%N ->
  odom_data_buff_ st <> [] ->
  exists imu_data odom_data angular_delta R_curr delta_t velocity_delta,
    back (imu_data_buff_ st) = Ok imu_data /\
    back (odom_data_buff_ st) = Ok odom_data /\
    size_t_sub (size (imu_data_buff_ st)) 1 = (size (imu_data_buff_ st) - 1)%N /\
    GetAngularDelta st (size (imu_data_buff_ st) - 1) 0 = Ok (Some angular_delta) /\
    let st1 := set_pose_ st (set_block33 (pose_ st) R_curr) in
    UpdateOrientation angular_delta st = Ok (st1, R_curr, block33 (pose_ st)) /\
    GetVelocityDelta st1 (size (imu_data_buff_ st) - 1) 0 R_curr
                     (block33 (pose_ st))
      = Ok (Some (delta_t, velocity_delta)) /\
    UpdatePose_integrate st =
      Ok (set_odom_data_buff_
            (set_imu_data_buff_ (UpdatePosition delta_t velocity_delta st1)
               [imu_data]) [odom_data], true).
Proof.
  intros H2 Hmax Hodom.
  assert (Himu : imu_data_buff_ st <> []).
  { intros E. unfold size in H2. rewrite E in H2. simpl in H2. lia. }
  destruct (back_nonempty _ Himu) as (imu_data & Eb).
  destruct (back_nonempty _ Hodom) as (odom_data & Eo).
  assert (Ei : size_t_sub (size (imu_data_buff_ st)) 1
               = (size (imu_data_buff_ st) - 1)%N)
    by (apply size_t_sub_one; [lia | exact Hmax]).
  assert (H0 : (0 < size (imu_data_buff_ st) - 1)%N) by lia.
  assert (H1 : (size (imu_data_buff_ st) - 1 < size (imu_data_buff_ st))%N) by lia.
  destruct (deltas_in_range st _ _ Identity3 Identity3 H0 H1)
    as (c & p & _ & _ & EA & _).
  destruct (UpdateOrientation_total
              (vscale (0.5 * (IMUData.time c - IMUData.time p))
                 (vadd (vsub (IMUData.angular_velocity c) (angular_vel_bias_ st))
                       (vsub (IMUData.angular_velocity p) (angular_vel_bias_ st))))
              st) as (R_curr & EU).
  set (st1 := set_pose_ st (set_block33 (pose_ st) R_curr)) in *.
  destruct (deltas_in_range st1 _ _ R_curr (block33 (pose_ st)) H0 H1)
    as (c' & p' & _ & _ & _ & EV).
  do 6 eexists. split; [exact Eb|]. split; [exact Eo|]. split; [exact Ei|].
  split; [exact EA|]. cbv zeta. fold st1. split; [exact EU|].
  split; [exact EV|].
  eapply UpdatePose_integrate_eval;
    [exact Eb | rewrite Ei; exact EA | exact EU | rewrite Ei; exact EV
    | exact Eo].
Qed.

(** ** The end-to-end scenario *)

Lemma end_to_end_index fz :
  size_t_sub (size (imu_data_buff_ (end_to_end fz))) 1 = 1%N.
Proof. reflexivity. Qed.

Lemma end_to_end_force fz :
  GetUnbiasedLinearAcc (end_to_end fz) (mkVector3d 0 0 fz) Identity3
  = mkVector3d 0 0 (fz + 9.81).
Proof.
  unfold GetUnbiasedLinearAcc, mulv, vsub, end_to_end, Identity3, Zero3.
  cbn. f_equal; lra.
Qed.

Lemma end_to_end_angular fz :
  GetAngularDelta (end_to_end fz) 1 0 = Ok (Some Zero3).
Proof.
  destruct (deltas_in_range (end_to_end fz) 1 0 Identity3 Identity3)
    as (c & p & Ec & Ep & EA & _); [reflexivity | reflexivity |].
  injection Ec as <-. injection Ep as <-. rewrite EA.
  do 2 f_equal. unfold vscale, vadd, vsub, Zero3. cbn. f_equal; lra.
Qed.

Lemma end_to_end_velocity fz :
  GetVelocityDelta (end_to_end fz) 1 0 Identity3 Identity3
  = Ok (Some (0.1, mkVector3d 0 0 (0.1 * (fz + 9.81)))).
Proof.
  destruct (deltas_in_range (end_to_end fz) 1 0 Identity3 Identity3)
    as (c & p & Ec & Ep & _ & EV); [reflexivity | reflexivity |].
  injection Ec as <-. injection Ep as <-. rewrite EV.
  do 2 f_equal. unfold vscale, vadd, vsub, mulv, Identity3, Zero3. cbn.
  f_equal; [lra | f_equal; lra].
Qed.

(** One cycle on the scenario: the orientation stays the identity, the
    velocity becomes [0.1 * (fz + 9.81)] along z and the position
    [0.005 * (fz + 9.81)]. *)
Lemma end_to_end_step fz :
  exists st',
    UpdatePose_integrate (end_to_end fz) = Ok (st', true) /\
    block33 (pose_ st') = Identity3 /\
    block31 (pose_ st') = mkVector3d 0 0 (0.005 * (fz + 9.81)) /\
    vel_ st' = mkVector3d 0 0 (0.1 * (fz + 9.81)).
Proof.
  eexists. split.
  - eapply UpdatePose_integrate_eval.
    + reflexivity.
    + rewrite end_to_end_index. apply end_to_end_angular.
    + apply UpdateOrientation_Zero3. exact Identity3_is_rotation.
    + rewrite end_to_end_index. apply end_to_end_velocity.
    + reflexivity.
  - split; [reflexivity|].
    unfold UpdatePosition, vadd, vscale, block31, set_block31, Zero3. cbn.
    split; f_equal; lra.
Qed.

(** ** C7 *)

(** C7 as stated fails: with gravity [(0,0,-9.81)] and specific force
    [(0,0,9.81)] the compensated force is [(0,0,19.62)], not zero, the
    velocity delta is [(0,0,1.962)], and the cycle changes both velocity
    and position. *)
Lemma end_to_end_force_not_zero :
  GetUnbiasedLinearAcc (end_to_end 9.81) (mkVector3d 0 0 9.81) Identity3
    = mkVector3d 0 0 19.62 /\
  GetUnbiasedLinearAcc (end_to_end 9.81) (mkVector3d 0 0 9.81) Identity3
    <> mkVector3d 0 0 0 /\
  GetVelocityDelta (end_to_end 9.81) 1 0 Identity3 Identity3
    = Ok (Some (0.1, mkVector3d 0 0 1.962)) /\
  GetVelocityDelta (end_to_end 9.81) 1 0 Identity3 Identity3
    <> Ok (Some (0.1, mkVector3d 0 0 0)) /\
  exists st',
    UpdatePose SyncData_spec (end_to_end 9.81) = Ok (st', true) /\
    vel_ st' <> vel_ (end_to_end 9.81) /\
    block31 (pose_ st') <> block31 (pose_ (end_to_end 9.81)).
Proof.
  rewrite end_to_end_force, end_to_end_velocity.
  destruct (end_to_end_step 9.81) as (st' & E & _ & H31 & Hv).
  replace (9.81 + 9.81) with 19.62 in * by lra.
  replace (0.1 * 19.62) with 1.962 in * by lra.
  replace (0.005 * 19.62) with 0.0981 in * by lra.
  split; [reflexivity|]. split; [|split; [reflexivity|split]].
  - intros H. injection H as H. lra.
  - intros H. injection H as H. lra.
  - exists st'. split; [exact E|]. rewrite Hv, H31. split.
    + intros H. injection H as H. lra.
    + intros H. injection H as H. lra.
Qed.

(** C7, amended.  With gravity [(0,0,-9.81)], no bias, identity
    orientation, a body at rest and samples at [t = 0] and [t = 0.1]
    without rotation: for the specific force [(0,0,9.81)] the compensated
    force is [(0,0,19.62)] at both samples, the velocity delta is
    [(0,0,1.962)], and the cycle sets the velocity to [(0,0,1.962)] and the
    position to [(0,0,0.0981)]; for the specific force [(0,0,-9.81)], equal
    to gravity, the compensated force and the velocity delta are zero and
    the cycle leaves orientation, position and velocity as they were. *)
Theorem end_to_end_cycle :
  forall SyncData,
    (GetUnbiasedLinearAcc (end_to_end 9.81) (mkVector3d 0 0 9.81) Identity3
       = mkVector3d 0 0 19.62 /\
     GetVelocityDelta (end_to_end 9.81) 1 0 Identity3 Identity3
       = Ok (Some (0.1, mkVector3d 0 0 1.962)) /\
     exists st',
       UpdatePose SyncData (end_to_end 9.81) = Ok (st', true) /\
       block33 (pose_ st') = Identity3 /\
       block31 (pose_ st') = mkVector3d 0 0 0.0981 /\
       vel_ st' = mkVector3d 0 0 1.962) /\
    (GetUnbiasedLinearAcc (end_to_end (-9.81)) (mkVector3d 0 0 (-9.81)) Identity3
       = mkVector3d 0 0 0 /\
     GetVelocityDelta (end_to_end (-9.81)) 1 0 Identity3 Identity3
       = Ok (Some (0.1, mkVector3d 0 0 0)) /\
     exists st',
       UpdatePose SyncData (end_to_end (-9.81)) = Ok (st', true) /\
       block33 (pose_ st') = block33 (pose_ (end_to_end (-9.81))) /\
       block31 (pose_ st') = block31 (pose_ (end_to_end (-9.81))) /\
       vel_ st' = vel_ (end_to_end (-9.81))).
Proof.
  intros SyncData. split.
  - rewrite end_to_end_force, end_to_end_velocity.
    destruct (end_to_end_step 9.81) as (st' & E & H33 & H31 & Hv).
    replace (9.81 + 9.81) with 19.62 in * by lra.
    replace (0.1 * 19.62) with 1.962 in * by lra.
    replace (0.005 * 19.62) with 0.0981 in * by lra.
    split; [reflexivity|]. split; [reflexivity|].
    exists st'. repeat split; assumption.
  - rewrite end_to_end_force, end_to_end_velocity.
    destruct (end_to_end_step (-9.81)) as (st' & E & H33 & H31 & Hv).
    replace (-9.81 + 9.81) with 0 in * by lra.
    replace (0.1 * 0) with 0 in * by lra.
    replace (0.005 * 0) with 0 in * by lra.
    split; [reflexivity|]. split; [reflexivity|].
    exists st'. repeat split; assumption.
Qed.

(** * Sessions *)

(** Setters and getters on a state given by its ten members. *)
Ltac simpl_state :=
  cbn [bind app negb UpdatePosition
       set_imu_data_buff_ set_odom_data_buff_ set_pose_ set_vel_
       set_init_time_ set_initialized_ set_sensor_inited
       initialized_ G_ angular_vel_bias_ linear_acc_bias_ imu_data_buff_
       odom_data_buff_ pose_ vel_ init_time_ sensor_inited].

Tactic Notation "simpl_state" "in" hyp(H) :=
  cbn [bind app negb UpdatePosition
       set_imu_data_buff_ set_odom_data_buff_ set_pose_ set_vel_
       set_init_time_ set_initialized_ set_sensor_inited
       initialized_ G_ angular_vel_bias_ linear_acc_bias_ imu_data_buff_
       odom_data_buff_ pose_ vel_ init_time_ sensor_inited] in H.

Section Sessions.

Variable SyncData :
  deque OdomData.t -> deque OdomData.t -> R ->
  result (deque OdomData.t * deque OdomData.t * bool).

(** The initializing branch: either it answers false and leaves the
    flag, the initialization time, the pose, the velocity and the
    inertial buffer alone, or it answers true and the new state is built
    from the newest inertial sample and the newest synchronized auxiliary
    sample. *)
Lemma UpdatePose_init_cases st st' updated :
  UpdatePose_init SyncData st = Ok (st', updated) ->
  (updated = false /\
   initialized_ st' = initialized_ st /\ init_time_ st' = init_time_ st /\
   pose_ st' = pose_ st /\ vel_ st' = vel_ st /\
   imu_data_buff_ st' = imu_data_buff_ st)
  \/
  (updated = true /\
   exists imu_data unsynced synced valid_odom odom_data,
     back (imu_data_buff_ st) = Ok imu_data /\
     SyncData (odom_data_buff_ st) (odom_data_buff_ st) (IMUData.time imu_data)
       = Ok (unsynced, synced, valid_odom) /\
     back synced = Ok odom_data /\
     st' = mkActivity true (G_ st) (angular_vel_bias_ st) (linear_acc_bias_ st)
             [imu_data] [odom_data]
             (OdomData.pose odom_data) (OdomData.vel odom_data)
             (OdomData.time odom_data) true).
Proof.
  intros E. destruct st as [ini G ab lb imu odom pose vel t0 si].
  unfold UpdatePose_init in E. simpl_state in E. simpl_state.
  destruct (size imu =? 0)%N.
  { injection E as <- <-. left. repeat split; reflexivity. }
  destruct (back imu) as [imu_data |] eqn:Eb; [|discriminate].
  simpl_state in E.
  destruct (SyncData odom odom (IMUData.time imu_data))
    as [[[unsynced synced] valid_odom] |] eqn:Es; [|discriminate].
  simpl_state in E.
  assert (Hgo :
    (odom_data <- back synced ;;
     Ok (mkActivity true G ab lb [imu_data] [odom_data]
           (OdomData.pose odom_data) (OdomData.vel odom_data)
           (OdomData.time odom_data) true, true))
    = Ok (st', updated) ->
    updated = true /\
    exists imu_data0 unsynced0 synced0 valid_odom0 odom_data,
      Ok imu_data = Ok imu_data0 /\
      SyncData odom odom (IMUData.time imu_data0)
        = Ok (unsynced0, synced0, valid_odom0) /\
      back synced0 = Ok odom_data /\
      st' = mkActivity true G ab lb [imu_data0] [odom_data]
              (OdomData.pose odom_data) (OdomData.vel odom_data)
              (OdomData.time odom_data) true).
  { destruct (back synced) as [odom_data |] eqn:Eo; [|discriminate].
    cbn [bind]. intros E'. injection E' as <- <-. split; [reflexivity|].
    exists imu_data, unsynced, synced, valid_odom, odom_data.
    repeat split; assumption. }
  destruct si; simpl_state in E.
  - rewrite Eb in E. right. exact (Hgo E).
  - destruct valid_odom; simpl_state in E.
    + rewrite Eb in E. right. exact (Hgo E).
    + injection E as <- <-. left. repeat split; reflexivity.
Qed.

(** The integrating branch never touches the flag or the initialization
    time, and keeps the buffers in order. *)
Lemma UpdatePose_integrate_keeps st st' updated :
  UpdatePose_integrate st = Ok (st', updated) ->
  initialized_ st' = initialized_ st /\ init_time_ st' = init_time_ st /\
  (buffers_ok st -> buffers_ok st').
Proof.
  unfold UpdatePose_integrate.
  destruct (back (imu_data_buff_ st)) as [imu_data |]; [|discriminate].
  cbn [bind].
  destruct (GetAngularDelta _ _ _) as [[angular_delta |] |]; [| |discriminate];
    cbn [bind].
  2:{ intros E. injection E as <- <-.
      split; [reflexivity | split; [reflexivity | intros H; exact H]]. }
  destruct (UpdateOrientation angular_delta st)
    as [[[st1 R_curr] R_prev] |] eqn:EU; [|discriminate].
  apply UpdateOrientation_frame in EU as [-> ->]. cbn [bind].
  destruct (GetVelocityDelta _ _ _ _ _) as [[[delta_t velocity_delta] |] |];
    [| |discriminate]; cbn [bind].
  2:{ intros E. injection E as <- <-.
      split; [reflexivity | split; [reflexivity | intros H; exact H]]. }
  cbn [UpdatePosition set_imu_data_buff_ set_odom_data_buff_ set_pose_ set_vel_
       odom_data_buff_ imu_data_buff_ app].
  destruct (back (odom_data_buff_ st)) as [odom_data |]; [|discriminate].
  cbn [bind]. intros E. injection E as <- <-.
  split; [reflexivity|]. split; [reflexivity|].
  intros _. split.
  - cbn. unfold max_size. apply N.leb_le. reflexivity.
  - intros _. discriminate.
Qed.

Lemma UpdatePose_keeps st st' updated :
  UpdatePose SyncData st = Ok (st', updated) ->
  (initialized_ st = true ->
   initialized_ st' = true /\ init_time_ st' = init_time_ st) /\
  (buffers_ok st -> buffers_ok st').
Proof.
  unfold UpdatePose. destruct (initialized_ st) eqn:Hi; cbn [negb].
  - intros E. apply UpdatePose_integrate_keeps in E as (E1 & E2 & E3).
    rewrite Hi in E1. split; [intros _; split; assumption | exact E3].
  - intros E. split; [discriminate|].
    apply UpdatePose_init_cases in E
      as [(_ & E1 & _ & _ & _ & E5) | (_ & i & u & s & v & o & _ & _ & _ & ->)].
    + intros [H1 H2]. split; [rewrite E5; exact H1|].
      rewrite E1, Hi. discriminate.
    + intros _. split.
      * cbn. unfold max_size. apply N.leb_le. reflexivity.
      * intros _. discriminate.
Qed.

Lemma ReadData_keeps new_imu new_odom st st' :
  ReadData new_imu new_odom st = Ok st' ->
  initialized_ st' = initialized_ st /\ init_time_ st' = init_time_ st /\
  (buffers_ok st -> buffers_ok st').
Proof.
  unfold ReadData, ParseData, insert_end.
  destruct (size (imu_data_buff_ st) + size new_imu <=? max_size)%N eqn:H1;
    [|discriminate].
  destruct (size (odom_data_buff_ st) + size new_odom <=? max_size)%N;
    [|discriminate].
  cbn [bind]. intros E. injection E as <-.
  split; [reflexivity|]. split; [reflexivity|].
  intros [_ H]. split.
  - cbn [set_odom_data_buff_ set_imu_data_buff_ imu_data_buff_].
    apply N.leb_le in H1. unfold size in *. rewrite length_app. lia.
  - cbn [set_odom_data_buff_ set_imu_data_buff_ odom_data_buff_ initialized_].
    intros Hi E. apply app_eq_nil in E as [E _]. exact (H Hi E).
Qed.

Lemma Run_loop_keeps fuel : forall st st' out,
  Run_loop SyncData fuel st = Ok (st', out) ->
  (initialized_ st = true ->
   initialized_ st' = true /\ init_time_ st' = init_time_ st) /\
  (buffers_ok st -> buffers_ok st').
Proof.
  induction fuel as [| fuel IH]; intros st st' out; cbn [Run_loop];
    [discriminate|].
  destruct (HasData st).
  2:{ intros E. injection E as <- <-. split; auto. }
  destruct (UpdatePose SyncData st) as [[st1 updated] |] eqn:EU; [|discriminate].
  cbn [bind]. apply UpdatePose_keeps in EU as [K1 K2].
  assert (Hrest : forall out1, Run_loop SyncData fuel st1 = Ok (st', out1) ->
    (initialized_ st = true ->
     initialized_ st' = true /\ init_time_ st' = init_time_ st) /\
    (buffers_ok st -> buffers_ok st')).
  { intros out1 E. apply IH in E as [L1 L2]. split.
    - intros Hi. destruct (K1 Hi) as [Hi1 Ht1].
      destruct (L1 Hi1) as [Hi2 Ht2]. split; congruence.
    - intros Hb. exact (L2 (K2 Hb)). }
  destruct updated.
  - destruct (PublishPose st1); [|discriminate]. cbn [bind].
    destruct (SaveTrajectoryTum st1); [|discriminate]. cbn [bind].
    destruct (Run_loop SyncData fuel st1) as [[st2 out1] |] eqn:ER;
      [|discriminate].
    cbn [bind]. intros E. injection E as <- <-. exact (Hrest out1 eq_refl).
  - apply Hrest.
Qed.

Lemma do_call_keeps c st st' :
  do_call SyncData c st = Ok st' ->
  (initialized_ st = true ->
   initialized_ st' = true /\ init_time_ st' = init_time_ st) /\
  (buffers_ok st -> buffers_ok st').
Proof.
  destruct c as [cfg | new_imu new_odom | | fuel new_imu new_odom];
    cbn [do_call].
  - intros E. injection E as <-. split; [auto|]. intros H. exact H.
  - intros E. apply ReadData_keeps in E as (E1 & E2 & E3).
    split; [intros Hi; split; congruence | exact E3].
  - destruct (UpdatePose SyncData st) as [[st1 updated] |] eqn:EU;
      [|discriminate].
    cbn [bind]. intros E. injection E as <-.
    exact (UpdatePose_keeps _ _ _ EU).
  - unfold Run.
    destruct (ReadData new_imu new_odom st) as [st1 |] eqn:ER; [|discriminate].
    cbn [bind].
    destruct (Run_loop SyncData fuel st1) as [[st2 out] |] eqn:EL;
      [|discriminate].
    cbn [bind]. intros E. injection E as <-.
    apply ReadData_keeps in ER as (E1 & E2 & E3).
    apply Run_loop_keeps in EL as [L1 L2]. split.
    + intros Hi. rewrite <- E1 in Hi. destruct (L1 Hi) as [Hi2 Ht2].
      split; congruence.
    + intros Hb. exact (L2 (E3 Hb)).
Qed.

(** Once set, the flag stays set and the initialization time stays what
    it is, whatever calls follow. *)
Lemma session_keeps calls : forall st st',
  session SyncData calls st = Ok st' ->
  (initialized_ st = true ->
   initialized_ st' = true /\ init_time_ st' = init_time_ st) /\
  (buffers_ok st -> buffers_ok st').
Proof.
  induction calls as [| c calls IH]; intros st st'; cbn [session].
  - intros E. injection E as <-. split; auto.
  - destruct (do_call SyncData c st) as [st1 |] eqn:Ec; [|discriminate].
    cbn [bind]. intros E. apply do_call_keeps in Ec as [K1 K2].
    apply IH in E as [L1 L2]. split.
    + intros Hi. destruct (K1 Hi) as [Hi1 Ht1].
      destruct (L1 Hi1) as [Hi2 Ht2]. split; congruence.
    + intros Hb. exact (L2 (K2 Hb)).
Qed.

Lemma reachable_buffers_ok st : reachable SyncData st -> buffers_ok st.
Proof.
  intros (pose0 & vel0 & t0 & s0 & cfg & calls & E).
  apply session_keeps in E as [_ K]. apply K. split.
  - cbn. unfold max_size. apply N.leb_le. reflexivity.
  - cbn. discriminate.
Qed.

End Sessions.

(** ** The session of the scenarios *)

Lemma SyncData_spec_first synced :
  SyncData_spec [odom_at_rest 0; odom_at_rest 1] synced 0.5
  = Ok ([odom_at_rest 1], synced ++ [blended], true).
Proof.
  unfold SyncData_spec, SyncData_bracket, odom_at_rest.
  cbn [OdomData.time OdomData.pose OdomData.vel].
  destruct (Rgt_dec 0 0.5) as [H | _]; [lra|].
  destruct (Rlt_dec 1 0.5) as [H | _]; [lra|].
  unfold fdiv. cbn [OdomData.time OdomData.pose OdomData.vel].
  destruct (Req_dec_T (1 - 0) 0) as [H | _]; [lra|].
  reflexivity.
Qed.

Lemma primed_reached : do_call SyncData_spec first_arrivals fresh = Ok primed.
Proof. reflexivity. Qed.

Lemma seeded_reached : UpdatePose SyncData_spec primed = Ok (seeded, true).
Proof.
  unfold UpdatePose, UpdatePose_init, primed.
  cbn [initialized_ negb imu_data_buff_ odom_data_buff_ size length N.of_nat
       N.eqb back rev app bind imu_sample IMUData.time].
  rewrite SyncData_spec_first. reflexivity.
Qed.

Lemma warm_reached :
  session SyncData_spec [CallReadData [imu_sample 0.6 (-9.81)] []] seeded
  = Ok warm.
Proof. reflexivity. Qed.

Lemma warm_reachable : reachable SyncData_spec warm.
Proof.
  exists Identity4, Zero3, 0, false,
    (mkIMUConfig (mkVector3d 0 0 (-9.81)) Zero3 Zero3),
    [first_arrivals; CallUpdatePose; CallReadData [imu_sample 0.6 (-9.81)] []].
  fold fresh. cbn [session]. rewrite primed_reached. cbn [bind do_call].
  rewrite seeded_reached. cbn [bind]. exact warm_reached.
Qed.

(** ** The validity check *)

Section Validity.

Variable SyncData :
  deque OdomData.t -> deque OdomData.t -> R ->
  result (deque OdomData.t * deque OdomData.t * bool).

(** The initializing branch and the static flag [sensor_inited]: an
    answer of false leaves both flags as they were; an answer of true
    sets both, and while [sensor_inited] was clear it is given only if
    the synchronizer answered true. *)
Lemma UpdatePose_init_validity st st' updated :
  UpdatePose_init SyncData st = Ok (st', updated) ->
  (updated = false /\
   initialized_ st' = initialized_ st /\ sensor_inited st' = sensor_inited st)
  \/
  (updated = true /\ initialized_ st' = true /\ sensor_inited st' = true /\
   forall imu_data unsynced synced valid_odom,
     back (imu_data_buff_ st) = Ok imu_data ->
     SyncData (odom_data_buff_ st) (odom_data_buff_ st) (IMUData.time imu_data)
       = Ok (unsynced, synced, valid_odom) ->
     sensor_inited st = false -> valid_odom = true).
Proof.
  intros E. destruct st as [ini G ab lb imu odom pose vel t0 si].
  unfold UpdatePose_init in E. simpl_state in E. simpl_state.
  destruct (size imu =? 0)%N.
  { injection E as <- <-. left. repeat split; reflexivity. }
  destruct (back imu) as [imu_data |] eqn:Eb; [|discriminate].
  simpl_state in E.
  destruct (SyncData odom odom (IMUData.time imu_data))
    as [[[unsynced synced] valid_odom] |] eqn:Es; [|discriminate].
  simpl_state in E.
  assert (Hgo :
    (odom_data <- back synced ;;
     Ok (mkActivity true G ab lb [imu_data] [odom_data]
           (OdomData.pose odom_data) (OdomData.vel odom_data)
           (OdomData.time odom_data) true, true))
    = Ok (st', updated) ->
    updated = true /\ initialized_ st' = true /\ sensor_inited st' = true).
  { destruct (back synced) as [odom_data |]; [|discriminate].
    cbn [bind]. intros E'. injection E' as <- <-.
    repeat split; reflexivity. }
  destruct si; simpl_state in E.
  - rewrite Eb in E. right. destruct (Hgo E) as (H1 & H2 & H3).
    repeat split; try assumption. intros; discriminate.
  - destruct valid_odom; simpl_state in E.
    + rewrite Eb in E. right. destruct (Hgo E) as (H1 & H2 & H3).
      repeat split; try assumption.
      intros i u s v Ei Ev _. injection Ei as <-. rewrite Es in Ev.
      injection Ev as _ _ <-. reflexivity.
    + injection E as <- <-. left. repeat split; reflexivity.
Qed.

(** While the estimator is not initialized, [sensor_inited] is as it
    was when the object was built: every call keeps that. *)
Lemma UpdatePose_unchecked st st' updated :
  UpdatePose SyncData st = Ok (st', updated) ->
  (initialized_ st = false -> sensor_inited st = false) ->
  initialized_ st' = false -> sensor_inited st' = false.
Proof.
  unfold UpdatePose. destruct (initialized_ st) eqn:Hi; cbn [negb]; intros E.
  - apply UpdatePose_integrate_keeps in E as (E1 & _ & _).
    rewrite Hi in E1. intros _ H. rewrite E1 in H. discriminate.
  - apply UpdatePose_init_validity in E
      as [(_ & E1 & E2) | (_ & E1 & _)].
    + intros H _. rewrite E2. exact (H eq_refl).
    + intros _ H. rewrite E1 in H. discriminate.
Qed.

Lemma ReadData_unchecked new_imu new_odom st st' :
  ReadData new_imu new_odom st = Ok st' ->
  (initialized_ st = false -> sensor_inited st = false) ->
  initialized_ st' = false -> sensor_inited st' = false.
Proof.
  unfold ReadData.
  destruct (ParseData new_imu (imu_data_buff_ st)); [|discriminate].
  cbn [bind].
  destruct (ParseData new_odom (odom_data_buff_ st)); [|discriminate].
  cbn [bind]. intros E. injection E as <-. intros H. exact H.
Qed.

Lemma Run_loop_unchecked fuel : forall st st' out,
  Run_loop SyncData fuel st = Ok (st', out) ->
  (initialized_ st = false -> sensor_inited st = false) ->
  initialized_ st' = false -> sensor_inited st' = false.
Proof.
  induction fuel as [| fuel IH]; intros st st' out; cbn [Run_loop];
    [discriminate|].
  destruct (HasData st).
  2:{ intros E. injection E as <- <-. intros H. exact H. }
  destruct (UpdatePose SyncData st) as [[st1 updated] |] eqn:EU; [|discriminate].
  cbn [bind]. intros E H. pose proof (UpdatePose_unchecked _ _ _ EU H) as H1.
  destruct updated.
  - destruct (PublishPose st1); [|discriminate]. cbn [bind] in E.
    destruct (SaveTrajectoryTum st1); [|discriminate]. cbn [bind] in E.
    destruct (Run_loop SyncData fuel st1) as [[st2 out1] |] eqn:ER;
      [|discriminate].
    cbn [bind] in E. injection E as <- <-. exact (IH _ _ _ ER H1).
  - exact (IH _ _ _ E H1).
Qed.

Lemma do_call_unchecked c st st' :
  do_call SyncData c st = Ok st' ->
  (initialized_ st = false -> sensor_inited st = false) ->
  initialized_ st' = false -> sensor_inited st' = false.
Proof.
  destruct c as [cfg | new_imu new_odom | | fuel new_imu new_odom];
    cbn [do_call].
  - intros E. injection E as <-. intros H. exact H.
  - apply ReadData_unchecked.
  - destruct (UpdatePose SyncData st) as [[st1 updated] |] eqn:EU;
      [|discriminate].
    cbn [bind]. intros E. injection E as <-.
    exact (UpdatePose_unchecked _ _ _ EU).
  - unfold Run.
    destruct (ReadData new_imu new_odom st) as [st1 |] eqn:ER; [|discriminate].
    cbn [bind].
    destruct (Run_loop SyncData fuel st1) as [[st2 out] |] eqn:EL;
      [|discriminate].
    cbn [bind]. intros E. injection E as <-. intros H.
    exact (Run_loop_unchecked _ _ _ _ EL (ReadData_unchecked _ _ _ _ ER H)).
Qed.

Lemma session_unchecked calls : forall st st',
  session SyncData calls st = Ok st' ->
  (initialized_ st = false -> sensor_inited st = false) ->
  initialized_ st' = false -> sensor_inited st' = false.
Proof.
  induction calls as [| c calls IH]; intros st st'; cbn [session].
  - intros E. injection E as <-. intros H. exact H.
  - destruct (do_call SyncData c st) as [st1 |] eqn:Ec; [|discriminate].
    cbn [bind]. intros E H.
    exact (IH _ _ E (do_call_unchecked _ _ _ Ec H)).
Qed.

End Validity.

(** ** C8 *)

(** C8.  Take a session on an estimator built while the static flag
    [sensor_inited] still has its initializer, [false].  When
    [UpdatePose] succeeds on the estimator while it is not yet
    initialized, the validity check has run: the synchronizer was called
    on the auxiliary buffer with the newest inertial time stamp and
    answered true; the call has set the flag and copied pose, velocity
    and time stamp of the newest synchronized auxiliary sample into
    [pose_], [vel_] and [init_time_]; and after whatever calls follow
    ([Init], [ReadData], [UpdatePose], [Run]) the flag is still set and
    [init_time_] still has that value. *)
Theorem initialized_latch :
  forall SyncData pose0 vel0 init_time0 cfg (before : list call)
         (st st1 : Activity) (calls : list call) (st2 : Activity),
    session SyncData before
      (Init cfg (Activity_ctor pose0 vel0 init_time0 false)) = Ok st ->
    initialized_ st = false ->
    UpdatePose SyncData st = Ok (st1, true) ->
    session SyncData calls st1 = Ok st2 ->
    (sensor_inited st = false /\
     exists imu_data unsynced synced odom_data,
       back (imu_data_buff_ st) = Ok imu_data /\
       SyncData (odom_data_buff_ st) (odom_data_buff_ st)
                (IMUData.time imu_data) = Ok (unsynced, synced, true) /\
       back synced = Ok odom_data /\
       initialized_ st1 = true /\
       sensor_inited st1 = true /\
       pose_ st1 = OdomData.pose odom_data /\
       vel_ st1 = OdomData.vel odom_data /\
       init_time_ st1 = OdomData.time odom_data) /\
    initialized_ st2 = true /\
    init_time_ st2 = init_time_ st1.
Proof.
  intros SyncData pose0 vel0 init_time0 cfg before st st1 calls st2
    E0 Hi EU ES.
  assert (Hs : sensor_inited st = false).
  { apply (session_unchecked SyncData before _ _ E0); [|exact Hi].
    intros _. reflexivity. }
  unfold UpdatePose in EU. rewrite Hi in EU. cbn [negb] in EU.
  pose proof (UpdatePose_init_validity SyncData _ _ _ EU)
    as [(Hf & _) | (_ & _ & _ & Hv)]; [discriminate|].
  apply UpdatePose_init_cases in EU
    as [(Hf & _) | (_ & i & u & s & v & o & Eb & Es & Eo & E1)];
    [discriminate|].
  assert (Hi1 : initialized_ st1 = true) by (rewrite E1; reflexivity).
  rewrite (Hv i u s v Eb Es Hs) in Es.
  split; [split; [exact Hs|] |].
  - exists i, u, s, o. rewrite E1. repeat split; assumption.
  - apply session_keeps in ES as [K _]. exact (K Hi1).
Qed.

(** The session of the scenarios: [fresh], then [primed], then [seeded],
    then [warm]. *)
Lemma initialized_latch_witness :
  initialized_ primed = false /\
  sensor_inited primed = false /\
  initialized_ seeded = true /\
  initialized_ warm = true /\ init_time_ warm = init_time_ seeded.
Proof.
  destruct (initialized_latch SyncData_spec Identity4 Zero3 0
              (mkIMUConfig (mkVector3d 0 0 (-9.81)) Zero3 Zero3)
              [first_arrivals] primed seeded
              [CallReadData [imu_sample 0.6 (-9.81)] []] warm
              eq_refl eq_refl seeded_reached warm_reached)
    as ((H0 & i & u & s & o & _ & _ & _ & H1 & _) & H2 & H3).
  repeat split; assumption.
Defined.

(** ** C10 *)

(** C10.  In a session, once the flag is set and two inertial samples or
    more are buffered, [UpdatePose] answers true: the index pair is
    [(size - 1, 0)], neither [GetAngularDelta] nor [GetVelocityDelta]
    answers false, orientation, position and velocity are updated, and
    each buffer is left with its newest sample only. *)
Theorem UpdatePose_integrating_succeeds :
  forall SyncData (st : Activity),
    reachable SyncData st ->
    initialized_ st = true ->
    (2 <= size (imu_data_buff_ st))%N ->
    exists imu_data odom_data angular_delta R_curr delta_t velocity_delta st',
      back (imu_data_buff_ st) = Ok imu_data /\
      back (odom_data_buff_ st) = Ok odom_data /\
      size_t_sub (size (imu_data_buff_ st)) 1
        = (size (imu_data_buff_ st) - 1)%N /\
      GetAngularDelta st (size (imu_data_buff_ st) - 1) 0
        = Ok (Some angular_delta) /\
      let st1 := set_pose_ st (set_block33 (pose_ st) R_curr) in
      UpdateOrientation angular_delta st = Ok (st1, R_curr, block33 (pose_ st)) /\
      GetVelocityDelta st1 (size (imu_data_buff_ st) - 1) 0 R_curr
                       (block33 (pose_ st))
        = Ok (Some (delta_t, velocity_delta)) /\
      UpdatePose SyncData st = Ok (st', true) /\
      pose_ st' = pose_ (UpdatePosition delta_t velocity_delta st1) /\
      vel_ st' = vadd (vel_ st) velocity_delta /\
      imu_data_buff_ st' = [imu_data] /\
      odom_data_buff_ st' = [odom_data].
Proof.
  intros SyncData st Hr Hi H2.
  destruct (reachable_buffers_ok _ _ Hr) as [Hmax Hodom].
  destruct (UpdatePose_integrate_ok st H2 Hmax (Hodom Hi))
    as (i & o & d & Rc & dt & dv & Eb & Eo & Ei & EA & EU & EV & EP).
  exists i, o, d, Rc, dt, dv. eexists.
  split; [exact Eb|]. split; [exact Eo|]. split; [exact Ei|].
  split; [exact EA|]. cbv zeta. split; [exact EU|]. split; [exact EV|].
  split.
  - unfold UpdatePose. rewrite Hi. cbn [negb]. exact EP.
  - repeat split; reflexivity.
Qed.

(** [warm] is reachable, initialized, and holds two inertial samples. *)
Lemma UpdatePose_integrating_succeeds_witness :
  exists st',
    UpdatePose SyncData_spec warm = Ok (st', true) /\
    imu_data_buff_ st' = [imu_sample 0.6 (-9.81)] /\
    odom_data_buff_ st' = [blended].
Proof.
  destruct (UpdatePose_integrating_succeeds SyncData_spec warm warm_reachable)
    as (i & o & d & Rc & dt & dv & st' & Eb & Eo & _ & _ & _ & _ & EP & _ & _
        & Hi & Ho).
  - reflexivity.
  - apply N.leb_le. reflexivity.
  - exists st'. injection Eb as <-. injection Eo as <-.
    repeat split; assumption.
Defined.

(** ** C9 *)

Lemma HasData_sizes st :
  HasData st = ((2 <=? size (imu_data_buff_ st))
                && (2 <=? size (odom_data_buff_ st)))%N.
Proof.
  unfold HasData.
  destruct (N.ltb_spec (size (imu_data_buff_ st)) 2) as [H1 | H1];
  destruct (N.ltb_spec (size (odom_data_buff_ st)) 2) as [H2 | H2];
  symmetry.
  - apply andb_false_iff. left. apply N.leb_gt. exact H1.
  - apply andb_false_iff. left. apply N.leb_gt. exact H1.
  - apply andb_false_iff. right. apply N.leb_gt. exact H2.
  - apply andb_true_iff. split; apply N.leb_le; assumption.
Qed.

Lemma UpdateOrientation_odom angular_delta st odom :
  UpdateOrientation angular_delta (set_odom_data_buff_ st odom) =
  ' (st1, R_curr, R_prev) <- UpdateOrientation angular_delta st ;;
  Ok (set_odom_data_buff_ st1 odom, R_curr, R_prev).
Proof.
  unfold UpdateOrientation.
  destruct (UpdateOrientation_dq angular_delta); [|reflexivity]. cbn [bind].
  cbn [set_odom_data_buff_ pose_].
  destruct (Quaterniond_of_matrix _); [|reflexivity]. cbn [bind].
  destruct (qnormalized _); reflexivity.
Qed.

(** What the integration step commits does not depend on the auxiliary
    buffer. *)
Lemma UpdatePose_integrate_odom st odom st1 st2 :
  UpdatePose_integrate st = Ok (st1, true) ->
  UpdatePose_integrate (set_odom_data_buff_ st odom) = Ok (st2, true) ->
  pose_ st1 = pose_ st2 /\ vel_ st1 = vel_ st2 /\
  imu_data_buff_ st1 = imu_data_buff_ st2.
Proof.
  unfold UpdatePose_integrate.
  change (imu_data_buff_ (set_odom_data_buff_ st odom)) with (imu_data_buff_ st).
  change (GetAngularDelta (set_odom_data_buff_ st odom))
    with (GetAngularDelta st).
  destruct (back (imu_data_buff_ st)) as [imu_data |]; [|discriminate].
  cbn [bind].
  destruct (GetAngularDelta st _ _) as [[angular_delta |] |];
    [| discriminate | discriminate]. cbn [bind].
  rewrite UpdateOrientation_odom.
  destruct (UpdateOrientation angular_delta st) as [[[sa R_curr] R_prev] |];
    [|discriminate]. cbn [bind].
  change (GetVelocityDelta (set_odom_data_buff_ sa odom))
    with (GetVelocityDelta sa).
  destruct (GetVelocityDelta sa _ _ _ _) as [[[delta_t velocity_delta] |] |];
    [| discriminate | discriminate]. cbn [bind].
  simpl_state.
  destruct (back (odom_data_buff_ sa)); [|discriminate].
  destruct (back odom); [|discriminate]. cbn [bind].
  intros E1 E2. injection E1 as <-. injection E2 as <-.
  repeat split; reflexivity.
Qed.

(** C9 as stated fails.  [warm] is a state of a session: initialized,
    two inertial samples, and the one auxiliary sample initialization
    left.  [HasData] is false there and the loop of [Run] returns at once
    with the state as it was, although a call of [UpdatePose] would
    succeed. *)
Lemma integrating_waits_for_odom :
  reachable SyncData_spec warm /\
  initialized_ warm = true /\
  size (imu_data_buff_ warm) = 2%N /\
  size (odom_data_buff_ warm) = 1%N /\
  HasData warm = false /\
  (forall fuel, Run_loop SyncData_spec (S fuel) warm = Ok (warm, [])) /\
  exists st', UpdatePose SyncData_spec warm = Ok (st', true).
Proof.
  split; [exact warm_reachable|]. do 4 (split; [reflexivity|]).
  split; [intros fuel; reflexivity|].
  assert (H2 : (2 <= size (imu_data_buff_ warm))%N)
    by (apply N.leb_le; reflexivity).
  assert (Hm : (size (imu_data_buff_ warm) <= max_size)%N)
    by (apply N.leb_le; reflexivity).
  destruct (UpdatePose_integrate_ok warm H2 Hm)
    as (i & o & d & Rc & dt & dv & _ & _ & _ & _ & _ & _ & E);
    [discriminate|].
  eexists. exact E.
Qed.

(** C9, amended.  [HasData] is true exactly when two inertial samples or
    more and two auxiliary samples or more are buffered; while it is false
    the loop of [Run] makes no call of [UpdatePose] and leaves the state
    as it was, also after initialization.  What a successful integration
    step commits as pose and velocity is the same for every content of the
    auxiliary buffer. *)
Theorem HasData_needs_both_buffers :
  forall SyncData (st : Activity),
    HasData st = ((2 <=? size (imu_data_buff_ st))
                  && (2 <=? size (odom_data_buff_ st)))%N /\
    (forall fuel : nat,
       HasData st = false -> Run_loop SyncData (S fuel) st = Ok (st, [])) /\
    (forall (odom : deque OdomData.t) (st1 st2 : Activity),
       initialized_ st = true ->
       UpdatePose SyncData st = Ok (st1, true) ->
       UpdatePose SyncData (set_odom_data_buff_ st odom) = Ok (st2, true) ->
       pose_ st1 = pose_ st2 /\ vel_ st1 = vel_ st2).
Proof.
  intros SyncData st. split; [apply HasData_sizes|]. split.
  - intros fuel H. cbn [Run_loop]. rewrite H. reflexivity.
  - intros odom st1 st2 Hi E1 E2. unfold UpdatePose in E1, E2.
    cbn [set_odom_data_buff_ initialized_] in E2. rewrite Hi in E1, E2.
    cbn [negb] in E1, E2.
    destruct (UpdatePose_integrate_odom st odom st1 st2 E1 E2) as (H1 & H2 & _).
    split; assumption.
Qed.

(** On [warm] (two inertial samples, one auxiliary sample) the loop does
    nothing; called directly, the integration step commits the same pose
    and velocity whether the auxiliary buffer holds [blended] or two other
    samples. *)
Lemma HasData_needs_both_buffers_witness :
  HasData warm = false /\
  Run_loop SyncData_spec 1 warm = Ok (warm, []) /\
  exists st1 st2,
    UpdatePose SyncData_spec warm = Ok (st1, true) /\
    UpdatePose SyncData_spec
      (set_odom_data_buff_ warm [odom_at_rest 0; odom_at_rest 1])
      = Ok (st2, true) /\
    pose_ st1 = pose_ st2 /\ vel_ st1 = vel_ st2.
Proof.
  destruct (HasData_needs_both_buffers SyncData_spec warm) as (_ & HR & HI).
  split; [reflexivity|]. split; [apply (HR 0%nat); reflexivity|].
  assert (H2 : (2 <= size (imu_data_buff_ warm))%N)
    by (apply N.leb_le; reflexivity).
  assert (Hm : (size (imu_data_buff_ warm) <= max_size)%N)
    by (apply N.leb_le; reflexivity).
  destruct (UpdatePose_integrate_ok warm H2 Hm)
    as (i1 & o1 & d1 & R1 & t1 & v1 & _ & _ & _ & _ & _ & _ & E1);
    [discriminate|].
  destruct (UpdatePose_integrate_ok
              (set_odom_data_buff_ warm [odom_at_rest 0; odom_at_rest 1]) H2 Hm)
    as (i2 & o2 & d2 & R2 & t2 & v2 & _ & _ & _ & _ & _ & _ & E2);
    [discriminate|].
  eexists. eexists. split; [exact E1|]. split; [exact E2|].
  exact (HI _ _ _ eq_refl E1 E2).
Defined.

(** * Further properties of the attitude integrator *)

(** The rotation matrix of a product of unit quaternions is the product
    of their rotation matrices. *)
Lemma toRotationMatrix_qmul a b :
  qsquaredNorm a = 1 -> qsquaredNorm b = 1 ->
  toRotationMatrix (qmul a b) = mmul (toRotationMatrix a) (toRotationMatrix b).
Proof.
  destruct a as [ax ay az aw], b as [bx by' bz bw].
  unfold qsquaredNorm, toRotationMatrix, qmul, Quaterniond_wxyz, mmul.
  cbn. intros Ha Hb. f_equal; nsatz.
Qed.

Lemma mmul_assoc a b c : mmul (mmul a b) c = mmul a (mmul b c).
Proof.
  destruct a, b, c. unfold mmul. cbn. f_equal; ring.
Qed.

Lemma mmul_Identity3_r a : mmul a Identity3 = a.
Proof. destruct a. unfold mmul, Identity3. cbn. f_equal; ring. Qed.

(** On a state whose rotation block is a rotation, [UpdateOrientation]
    multiplies the block on the right by the rotation matrix of [dq]. *)
Lemma UpdateOrientation_rotation angular_delta st dq :
  is_rotation (block33 (pose_ st)) ->
  UpdateOrientation_dq angular_delta = Ok dq ->
  qsquaredNorm dq = 1 ->
  UpdateOrientation angular_delta st =
    Ok (set_pose_ st
          (set_block33 (pose_ st)
             (mmul (block33 (pose_ st)) (toRotationMatrix dq))),
        mmul (block33 (pose_ st)) (toRotationMatrix dq),
        block33 (pose_ st)).
Proof.
  intros Hrot Edq Hdq.
  destruct (Quaterniond_of_rotation _ Hrot) as (q & Eq & Hq & Eback).
  assert (Hn : qsquaredNorm (qmul q dq) = 1)
    by (rewrite qmul_squaredNorm, Hq, Hdq; ring).
  unfold UpdateOrientation. rewrite Edq, Eq. cbn [bind].
  rewrite (qnormalized_unit _ Hn). cbn [bind set_pose_ pose_].
  rewrite block33_set_block33, (toRotationMatrix_qmul _ _ Hq Hdq), Eback.
  reflexivity.
Qed.

(** What [UpdateOrientation] returns as [R_curr] is a rotation and is the
    block it has stored. *)
Lemma UpdateOrientation_commits_rotation angular_delta st st1 R_curr R_prev :
  UpdateOrientation angular_delta st = Ok (st1, R_curr, R_prev) ->
  is_rotation R_curr /\ block33 (pose_ st1) = R_curr.
Proof.
  intros E.
  destruct (UpdateOrientation_dq_unit angular_delta) as (dq & Edq & Hdq).
  destruct (UpdateOrientation_with_dq angular_delta st dq Edq Hdq)
    as (q_old & _ & _ & _ & _ & Hqn & EU).
  rewrite EU in E. injection E as <- <- <-. split.
  - apply toRotationMatrix_is_rotation. exact Hqn.
  - cbn [set_pose_ pose_]. apply block33_set_block33.
Qed.

Lemma set_block33_twice p a b : set_block33 (set_block33 p a) b = set_block33 p b.
Proof. destruct p; reflexivity. Qed.

Lemma set_pose_twice st p q : set_pose_ (set_pose_ st p) q = set_pose_ st q.
Proof. reflexivity. Qed.

(** The incremental quaternion of the opposite delta is the conjugate. *)
Lemma UpdateOrientation_dq_opposite angular_delta dq :
  UpdateOrientation_dq angular_delta = Ok dq ->
  UpdateOrientation_dq (vscale (-1) angular_delta)
  = Ok (mkCoeffs (- qx dq) (- qy dq) (- qz dq) (qw dq)).
Proof.
  intros Edq.
  assert (Ez : squaredNorm (vscale (-1) angular_delta) = squaredNorm angular_delta)
    by (unfold squaredNorm, vscale; cbn [x y z]; ring).
  destruct (Rgt_dec (squaredNorm angular_delta) 0) as [Hz | Hz].
  - rewrite (UpdateOrientation_dq_pos _ Hz) in Edq. injection Edq as <-.
    assert (Hz' : 0 < squaredNorm (vscale (-1) angular_delta)) by (rewrite Ez; lra).
    rewrite (UpdateOrientation_dq_pos _ Hz'). rewrite Ez.
    unfold Quaterniond_wxyz, vscale. cbn [x y z qx qy qz qw].
    do 2 f_equal; unfold Rdiv; ring.
  - rewrite (squaredNorm_zero _ Hz) in *.
    rewrite UpdateOrientation_dq_zero in Edq. injection Edq as <-.
    replace (vscale (-1) Zero3) with Zero3
      by (unfold vscale, Zero3; cbn [x y z]; f_equal; ring).
    rewrite UpdateOrientation_dq_zero.
    unfold Quaterniond_wxyz. cbn [qx qy qz qw]. do 2 f_equal; ring.
Qed.

Lemma toRotationMatrix_conjugate q :
  qsquaredNorm q = 1 ->
  mmul (toRotationMatrix q)
       (toRotationMatrix (mkCoeffs (- qx q) (- qy q) (- qz q) (qw q)))
  = Identity3.
Proof.
  destruct q as [a b c d].
  unfold qsquaredNorm, toRotationMatrix, mmul, Identity3. cbn.
  intros H. f_equal; nsatz.
Qed.

(** The incremental quaternion of the doubled delta is the square. *)
Lemma UpdateOrientation_dq_double angular_delta dq :
  UpdateOrientation_dq angular_delta = Ok dq ->
  UpdateOrientation_dq (vscale 2 angular_delta) = Ok (qmul dq dq).
Proof.
  intros Edq.
  assert (Ez : squaredNorm (vscale 2 angular_delta)
               = 4 * squaredNorm angular_delta)
    by (unfold squaredNorm, vscale; cbn [x y z]; ring).
  destruct (Rgt_dec (squaredNorm angular_delta) 0) as [Hz | Hz].
  - rewrite (UpdateOrientation_dq_pos _ Hz) in Edq. injection Edq as <-.
    destruct (normalized_pos _ Hz) as (Hm & _ & _ & Hu).
    assert (Hz' : 0 < squaredNorm (vscale 2 angular_delta)) by (rewrite Ez; lra).
    rewrite (UpdateOrientation_dq_pos _ Hz'). rewrite Ez.
    rewrite sqrt_mult by lra. rewrite sqrt_4.
    set (m := sqrt (squaredNorm angular_delta)) in *.
    replace (2 * m / 2) with (2 * (m / 2)) by lra.
    rewrite cos_2a, sin_2a.
    unfold squaredNorm in Hu. cbn [x y z] in Hu.
    unfold qmul, Quaterniond_wxyz, vscale. cbn [x y z qx qy qz qw].
    replace (2 * x angular_delta / (2 * m)) with (x angular_delta / m)
      by (field; lra).
    replace (2 * y angular_delta / (2 * m)) with (y angular_delta / m)
      by (field; lra).
    replace (2 * z angular_delta / (2 * m)) with (z angular_delta / m)
      by (field; lra).
    set (ux := x angular_delta / m) in *. set (uy := y angular_delta / m) in *.
    set (uz := z angular_delta / m) in *.
    set (c := cos (m / 2)). set (s := sin (m / 2)).
    do 2 f_equal; nsatz.
  - rewrite (squaredNorm_zero _ Hz) in *.
    rewrite UpdateOrientation_dq_zero in Edq. injection Edq as <-.
    replace (vscale 2 Zero3) with Zero3
      by (unfold vscale, Zero3; cbn [x y z]; f_equal; ring).
    rewrite UpdateOrientation_dq_zero, qmul_identity. reflexivity.
Qed.

(** X1.  On a rotation the update is a right multiplication of matrices:
    [R_curr = R_prev * M], where [M] is the rotation matrix of the unit
    quaternion [dq] built from the angular delta. *)
Theorem UpdateOrientation_right_multiplies :
  forall (st : Activity) (angular_delta : Vector3d),
    is_rotation (block33 (pose_ st)) ->
    exists dq st1 R_curr R_prev,
      UpdateOrientation_dq angular_delta = Ok dq /\
      qsquaredNorm dq = 1 /\
      is_rotation (toRotationMatrix dq) /\
      UpdateOrientation angular_delta st = Ok (st1, R_curr, R_prev) /\
      R_prev = block33 (pose_ st) /\
      R_curr = mmul R_prev (toRotationMatrix dq) /\
      block33 (pose_ st1) = mmul (block33 (pose_ st)) (toRotationMatrix dq).
Proof.
  intros st angular_delta Hrot.
  destruct (UpdateOrientation_dq_unit angular_delta) as (dq & Edq & Hdq).
  exists dq. do 3 eexists.
  split; [exact Edq|]. split; [exact Hdq|].
  split; [apply toRotationMatrix_is_rotation; exact Hdq|].
  split; [apply (UpdateOrientation_rotation _ _ _ Hrot Edq Hdq)|].
  split; [reflexivity|]. split; [reflexivity|].
  cbn [set_pose_ pose_]. apply block33_set_block33.
Qed.

(** The identity pose and a delta of one radian about z. *)
Lemma UpdateOrientation_right_multiplies_witness :
  is_rotation (block33 (pose_ (end_to_end 0))) /\
  exists dq st1 R_curr,
    UpdateOrientation (mkVector3d 0 0 1) (end_to_end 0)
      = Ok (st1, R_curr, Identity3) /\
    R_curr = mmul Identity3 (toRotationMatrix dq).
Proof.
  split; [exact Identity3_is_rotation|].
  destruct (UpdateOrientation_right_multiplies (end_to_end 0)
              (mkVector3d 0 0 1) Identity3_is_rotation)
    as (dq & st1 & R_curr & R_prev & _ & _ & _ & EU & EP & EC & _).
  exists dq, st1, R_curr. rewrite EP in EU, EC. split; assumption.
Defined.

(** X2.  Undoing a rotation: after an update by [angular_delta] on a
    rotation, an update by the opposite delta gives back the state as it
    was, and hands back the old block as [R_curr]. *)
Theorem UpdateOrientation_opposite_restores :
  forall (st st1 : Activity) (angular_delta : Vector3d)
         (R_curr R_prev : Matrix3d),
    is_rotation (block33 (pose_ st)) ->
    UpdateOrientation angular_delta st = Ok (st1, R_curr, R_prev) ->
    UpdateOrientation (vscale (-1) angular_delta) st1
      = Ok (st, block33 (pose_ st), R_curr).
Proof.
  intros st st1 angular_delta R_curr R_prev Hrot EU.
  destruct (UpdateOrientation_dq_unit angular_delta) as (dq & Edq & Hdq).
  pose proof (UpdateOrientation_commits_rotation _ _ _ _ _ EU) as [Hrot1 Eb1].
  rewrite (UpdateOrientation_rotation _ _ _ Hrot Edq Hdq) in EU.
  injection EU as E1 EC EP.
  pose proof (UpdateOrientation_dq_opposite _ _ Edq) as Edq'.
  assert (Hdq' : qsquaredNorm (mkCoeffs (- qx dq) (- qy dq) (- qz dq) (qw dq)) = 1).
  { unfold qsquaredNorm in *. cbn [qx qy qz qw]. rewrite <- Hdq. ring. }
  rewrite <- Eb1 in Hrot1.
  rewrite (UpdateOrientation_rotation _ _ _ Hrot1 Edq' Hdq').
  rewrite Eb1, <- EC, mmul_assoc, (toRotationMatrix_conjugate _ Hdq),
    mmul_Identity3_r.
  rewrite <- E1. cbn [set_pose_ pose_].
  rewrite set_block33_twice, set_block33_block33.
  change (Ok (set_pose_ st (pose_ st), block33 (pose_ st),
              mmul (block33 (pose_ st)) (toRotationMatrix dq))
          = Ok (st, block33 (pose_ st),
                mmul (block33 (pose_ st)) (toRotationMatrix dq))).
  rewrite set_pose_same. reflexivity.
Qed.

Lemma UpdateOrientation_opposite_restores_witness :
  exists st1 R_curr,
    UpdateOrientation (mkVector3d 0 0 1) (end_to_end 0)
      = Ok (st1, R_curr, Identity3) /\
    UpdateOrientation (vscale (-1) (mkVector3d 0 0 1)) st1
      = Ok (end_to_end 0, Identity3, R_curr).
Proof.
  destruct (UpdateOrientation_total (mkVector3d 0 0 1) (end_to_end 0))
    as (R_curr & EU).
  eexists. exists R_curr. split; [exact EU|].
  exact (UpdateOrientation_opposite_restores (end_to_end 0) _ _ _ _
           Identity3_is_rotation EU).
Defined.

(** X3.  Subdividing a step: two updates by the same angular delta on a
    rotation leave the state that one update by twice the delta leaves. *)
Theorem UpdateOrientation_twice_is_double :
  forall (st st1 st2 : Activity) (angular_delta : Vector3d)
         (R1 R0 R2 R1' : Matrix3d),
    is_rotation (block33 (pose_ st)) ->
    UpdateOrientation angular_delta st = Ok (st1, R1, R0) ->
    UpdateOrientation angular_delta st1 = Ok (st2, R2, R1') ->
    UpdateOrientation (vscale 2 angular_delta) st = Ok (st2, R2, R0).
Proof.
  intros st st1 st2 angular_delta R1 R0 R2 R1' Hrot EU1 EU2.
  destruct (UpdateOrientation_dq_unit angular_delta) as (dq & Edq & Hdq).
  pose proof (UpdateOrientation_commits_rotation _ _ _ _ _ EU1) as [Hrot1 Eb1].
  rewrite <- Eb1 in Hrot1.
  rewrite (UpdateOrientation_rotation _ _ _ Hrot Edq Hdq) in EU1.
  injection EU1 as E1 EC1 EP1.
  rewrite (UpdateOrientation_rotation _ _ _ Hrot1 Edq Hdq) in EU2.
  injection EU2 as E2 EC2 EP2.
  pose proof (UpdateOrientation_dq_double _ _ Edq) as Edq2.
  assert (Hdq2 : qsquaredNorm (qmul dq dq) = 1)
    by (rewrite qmul_squaredNorm, Hdq; ring).
  rewrite (UpdateOrientation_rotation _ _ _ Hrot Edq2 Hdq2).
  rewrite (toRotationMatrix_qmul _ _ Hdq Hdq), <- mmul_assoc.
  rewrite <- E2, <- EC2, <- EP1, Eb1, <- EC1, <- E1.
  cbn [set_pose_ pose_]. rewrite set_block33_twice. reflexivity.
Qed.

Lemma UpdateOrientation_twice_is_double_witness :
  exists st2 R2,
    UpdateOrientation (vscale 2 (mkVector3d 0 0 1)) (end_to_end 0)
      = Ok (st2, R2, Identity3).
Proof.
  destruct (UpdateOrientation_total (mkVector3d 0 0 1) (end_to_end 0))
    as (R1 & EU1).
  destruct (UpdateOrientation_total (mkVector3d 0 0 1)
              (set_pose_ (end_to_end 0)
                 (set_block33 (pose_ (end_to_end 0)) R1)))
    as (R2 & EU2).
  eexists. exists R2.
  exact (UpdateOrientation_twice_is_double (end_to_end 0) _ _ _ _ _ _ _
           Identity3_is_rotation EU1 EU2).
Defined.

(** X4.  The message [PublishPose] builds from a pose whose rotation
    block is a rotation carries a unit quaternion whose rotation matrix is
    that block, the translation block as position and [vel_] as linear
    velocity. *)
Theorem PublishPose_unit_quaternion :
  forall st : Activity,
    is_rotation (block33 (pose_ st)) ->
    exists msg,
      PublishPose st = Ok msg /\
      qsquaredNorm (orientation msg) = 1 /\
      toRotationMatrix (orientation msg) = block33 (pose_ st) /\
      position msg = block31 (pose_ st) /\
      twist_linear msg = vel_ st.
Proof.
  intros st Hrot.
  destruct (Quaterniond_of_rotation _ Hrot) as (q & Eq & Hq & Eback).
  unfold PublishPose. rewrite Eq. cbn [bind].
  eexists. split; [reflexivity|]. cbn [orientation position twist_linear].
  repeat split; assumption.
Qed.

Lemma PublishPose_unit_quaternion_witness :
  is_rotation (block33 (pose_ (end_to_end 0))) /\
  exists msg,
    PublishPose (end_to_end 0) = Ok msg /\
    toRotationMatrix (orientation msg) = Identity3.
Proof.
  split; [exact Identity3_is_rotation|].
  destruct (PublishPose_unit_quaternion (end_to_end 0) Identity3_is_rotation)
    as (msg & E & _ & Hb & _).
  exists msg. split; assumption.
Defined.

(** * Further properties of the delta computations *)

(** X5.  The first-order variants answer false on exactly the index
    pairs on which the mid-value ones do. *)
Theorem Euler_variants_share_the_guard :
  forall (st : Activity) (index_curr index_prev : N) (R_curr R_prev : Matrix3d),
    returns_false (GetAngularDeltaEuler st index_curr index_prev)
      = returns_false (GetAngularDelta st index_curr index_prev) /\
    returns_false (GetVelocityDeltaEuler st index_curr index_prev R_curr R_prev)
      = returns_false (GetVelocityDelta st index_curr index_prev R_curr R_prev) /\
    returns_false (GetAngularDeltaEuler st index_curr index_prev)
      = ((index_curr <=? index_prev)
         || (size (imu_data_buff_ st) <=? index_curr))%N.
Proof.
  intros st index_curr index_prev R_curr R_prev.
  rewrite GetAngularDelta_false, GetVelocityDelta_false.
  assert (HA : returns_false (GetAngularDeltaEuler st index_curr index_prev)
               = index_guard st index_curr index_prev).
  { destruct (index_guard st index_curr index_prev) eqn:Hg.
    - unfold GetAngularDeltaEuler. unfold index_guard in Hg. rewrite Hg.
      reflexivity.
    - unfold index_guard in Hg. pose proof Hg as Hg'.
      apply orb_false_elim in Hg as [H1 H2]. apply N.leb_gt in H1, H2.
      destruct (deltas_in_range st _ _ R_curr R_prev H1 H2)
        as (c & p & Ec & Ep & _ & _).
      unfold GetAngularDeltaEuler. rewrite Hg', Ec, Ep. reflexivity. }
  split; [exact HA|]. split; [|exact HA].
  destruct (index_guard st index_curr index_prev) eqn:Hg.
  - unfold GetVelocityDeltaEuler. unfold index_guard in Hg. rewrite Hg.
    reflexivity.
  - unfold index_guard in Hg. pose proof Hg as Hg'.
    apply orb_false_elim in Hg as [H1 H2]. apply N.leb_gt in H1, H2.
    destruct (deltas_in_range st _ _ R_curr R_prev H1 H2)
      as (c & p & Ec & Ep & _ & _).
    unfold GetVelocityDeltaEuler. rewrite Hg', Ec, Ep. reflexivity.
Qed.

(** X6.  On a valid index pair the mid-value delta is the first-order
    delta plus half the step times the change between the two endpoints:
    of the unbiased angular velocity for the angular delta, of the
    compensated force for the velocity delta.  Both variants report the
    same [delta_t]. *)
Theorem mid_value_minus_Euler :
  forall (st : Activity) (index_curr index_prev : N) (R_curr R_prev : Matrix3d),
    (index_prev < index_curr)%N ->
    (index_curr < size (imu_data_buff_ st))%N ->
    exists curr prev d e dt dv ev,
      nth_error (imu_data_buff_ st) (N.to_nat index_curr) = Some curr /\
      nth_error (imu_data_buff_ st) (N.to_nat index_prev) = Some prev /\
      GetAngularDelta st index_curr index_prev = Ok (Some d) /\
      GetAngularDeltaEuler st index_curr index_prev = Ok (Some e) /\
      GetVelocityDelta st index_curr index_prev R_curr R_prev
        = Ok (Some (dt, dv)) /\
      GetVelocityDeltaEuler st index_curr index_prev R_curr R_prev
        = Ok (Some (dt, ev)) /\
      dt = IMUData.time curr - IMUData.time prev /\
      d = vadd e
            (vscale (0.5 * dt)
               (vsub (GetUnbiasedAngularVel st (IMUData.angular_velocity curr))
                     (GetUnbiasedAngularVel st (IMUData.angular_velocity prev))))
      /\
      dv = vadd ev
             (vscale (0.5 * dt)
                (vsub (GetUnbiasedLinearAcc st
                         (IMUData.linear_acceleration curr) R_curr)
                      (GetUnbiasedLinearAcc st
                         (IMUData.linear_acceleration prev) R_prev))).
Proof.
  intros st index_curr index_prev R_curr R_prev H1 H2.
  destruct (deltas_in_range st _ _ R_curr R_prev H1 H2)
    as (curr & prev & Ec & Ep & EA & EV).
  pose proof (index_guard_false st _ _ H1 H2) as Hg. unfold index_guard in Hg.
  exists curr, prev. do 5 eexists.
  split. { unfold at_ in Ec.
           destruct (nth_error _ (N.to_nat index_curr)); [|discriminate].
           injection Ec as ->. reflexivity. }
  split. { unfold at_ in Ep.
           destruct (nth_error _ (N.to_nat index_prev)); [|discriminate].
           injection Ep as ->. reflexivity. }
  split; [exact EA|].
  split. { unfold GetAngularDeltaEuler. rewrite Hg, Ec, Ep. reflexivity. }
  split; [exact EV|].
  split. { unfold GetVelocityDeltaEuler. rewrite Hg, Ec, Ep. reflexivity. }
  split; [reflexivity|].
  split.
  - unfold GetUnbiasedAngularVel, vadd, vscale, vsub. cbn [x y z].
    pose proof half_two as Hh. set (h := 0.5) in *. clearbody h.
    f_equal; nsatz.
  - unfold GetUnbiasedLinearAcc, vadd, vscale, vsub. cbn [x y z].
    pose proof half_two as Hh. set (h := 0.5) in *. clearbody h.
    f_equal; nsatz.
Qed.

Lemma mid_value_minus_Euler_witness :
  exists d e,
    GetAngularDelta (end_to_end 0) 1 0 = Ok (Some d) /\
    GetAngularDeltaEuler (end_to_end 0) 1 0 = Ok (Some e).
Proof.
  destruct (mid_value_minus_Euler (end_to_end 0) 1 0 Identity3 Identity3)
    as (c & p & d & e & dt & dv & ev & _ & _ & EA & EE & _).
  - reflexivity.
  - reflexivity.
  - exists d, e. split; assumption.
Defined.

(** X7.  [UpdatePosition] advances the position by [delta_t] times the
    mean of the velocity before and the velocity after the call. *)
Theorem UpdatePosition_mean_velocity :
  forall (st : Activity) (delta_t : R) (velocity_delta : Vector3d),
    let st' := UpdatePosition delta_t velocity_delta st in
    block31 (pose_ st') =
      vadd (block31 (pose_ st))
           (vscale delta_t (vscale 0.5 (vadd (vel_ st) (vel_ st')))).
Proof.
  intros st delta_t velocity_delta st'.
  unfold st', UpdatePosition, vadd, vscale, block31, set_block31. cbn.
  f_equal; lra.
Qed.

(** * Further properties of the integration step *)

(** A buffer with a first sample [a] and a last sample [b]: what the
    integration step reads from it. *)
Lemma imu_first_last (imu : deque IMUData.t) a mid b :
  imu = a :: mid ++ [b] ->
  (size imu <= max_size)%N ->
  back imu = Ok b /\
  size_t_sub (size imu) 1 = (size imu - 1)%N /\
  (0 < size imu - 1)%N /\ (size imu - 1 < size imu)%N /\
  at_ imu (size imu - 1) = Ok b /\ at_ imu 0 = Ok a.
Proof.
  intros -> Hmax.
  assert (Hlen : size (a :: mid ++ [b]) = N.of_nat (S (S (length mid)))).
  { unfold size. cbn [length]. rewrite length_app. cbn [length].
    f_equal. lia. }
  split. { change (a :: mid ++ [b]) with ((a :: mid) ++ [b]). apply back_last. }
  split. { apply size_t_sub_one; [lia | exact Hmax]. }
  split; [lia|]. split; [lia|]. split; [|reflexivity].
  unfold at_. rewrite Hlen.
  replace (N.to_nat (N.of_nat (S (S (length mid))) - 1)) with (S (length mid))
    by lia.
  cbn [nth_error]. rewrite nth_error_app2 by lia.
  rewrite Nat.sub_diag. reflexivity.
Qed.

(** The integration step in terms of the first and the last sample of
    the inertial buffer. *)
Lemma UpdatePose_integrate_first_last st a mid b :
  imu_data_buff_ st = a :: mid ++ [b] ->
  (size (imu_data_buff_ st) <= max_size)%N ->
  let dt := IMUData.time b - IMUData.time a in
  let angular_delta :=
    vscale (0.5 * dt)
      (vadd (GetUnbiasedAngularVel st (IMUData.angular_velocity b))
            (GetUnbiasedAngularVel st (IMUData.angular_velocity a))) in
  exists R_curr,
    let st1 := set_pose_ st (set_block33 (pose_ st) R_curr) in
    let velocity_delta :=
      vscale (0.5 * dt)
        (vadd (GetUnbiasedLinearAcc st (IMUData.linear_acceleration b) R_curr)
              (GetUnbiasedLinearAcc st (IMUData.linear_acceleration a)
                 (block33 (pose_ st)))) in
    UpdateOrientation angular_delta st = Ok (st1, R_curr, block33 (pose_ st)) /\
    UpdatePose_integrate st =
      (odom_data <- back (odom_data_buff_ st) ;;
       Ok (set_odom_data_buff_
             (set_imu_data_buff_ (UpdatePosition dt velocity_delta st1) [b])
             [odom_data], true)).
Proof.
  intros Eimu Hmax dt angular_delta.
  destruct (imu_first_last _ a mid b Eimu Hmax)
    as (Eb & Ei & H0 & H1 & Ec & Ep).
  destruct (UpdateOrientation_total angular_delta st) as (R_curr & EU).
  exists R_curr. cbv zeta. split; [exact EU|].
  pose proof (index_guard_false st _ _ H0 H1) as Hg. unfold index_guard in Hg.
  unfold UpdatePose_integrate. rewrite Eb, Ei. cbn [bind].
  unfold GetAngularDelta at 1. rewrite Hg, Ec, Ep. cbn [bind].
  fold dt. fold angular_delta. rewrite EU. cbn [bind].
  unfold GetVelocityDelta at 1. cbn [set_pose_ imu_data_buff_].
  rewrite Hg, Ec, Ep. cbn [bind]. fold dt. reflexivity.
Qed.

Lemma vscale_zero_l v : vscale (0.5 * 0) v = Zero3.
Proof. unfold vscale, Zero3. f_equal; lra. Qed.

Lemma vscale_Zero3 s : vscale s (vadd Zero3 Zero3) = Zero3.
Proof. unfold vscale, vadd, Zero3. cbn [x y z]. f_equal; ring. Qed.

Lemma set_block31_block31 p : set_block31 p (block31 p) = p.
Proof. destruct p; reflexivity. Qed.

(** A step of no duration and no velocity change moves nothing. *)
Lemma UpdatePosition_null st : UpdatePosition 0 Zero3 st = st.
Proof.
  unfold UpdatePosition.
  replace (vadd (block31 (pose_ st))
             (vadd (vscale 0 (vel_ st)) (vscale (0.5 * 0) Zero3)))
    with (block31 (pose_ st))
    by (unfold vadd, vscale, Zero3, block31; cbn [x y z]; f_equal; lra).
  rewrite set_block31_block31, set_pose_same.
  replace (vadd (vel_ st) Zero3) with (vel_ st)
    by (unfold vadd, Zero3; destruct (vel_ st); cbn [x y z]; f_equal; lra).
  destruct st; reflexivity.
Qed.

Lemma UpdateOrientation_imu angular_delta st imu :
  UpdateOrientation angular_delta (set_imu_data_buff_ st imu) =
  ' (st1, R_curr, R_prev) <- UpdateOrientation angular_delta st ;;
  Ok (set_imu_data_buff_ st1 imu, R_curr, R_prev).
Proof.
  unfold UpdateOrientation.
  destruct (UpdateOrientation_dq angular_delta); [|reflexivity]. cbn [bind].
  cbn [set_imu_data_buff_ pose_].
  destruct (Quaterniond_of_matrix _); [|reflexivity]. cbn [bind].
  destruct (qnormalized _); reflexivity.
Qed.

(** X8.  The integration step reads the oldest and the newest buffered
    inertial sample only: with samples in between it leaves the same
    state, and answers the same, as with those two alone. *)
Theorem UpdatePose_skips_samples_in_between :
  forall SyncData (st : Activity) (a : IMUData.t) (mid : list IMUData.t)
         (b : IMUData.t),
    initialized_ st = true ->
    imu_data_buff_ st = a :: mid ++ [b] ->
    (size (imu_data_buff_ st) <= max_size)%N ->
    UpdatePose SyncData st
    = UpdatePose SyncData (set_imu_data_buff_ st [a; b]).
Proof.
  intros SyncData st a mid b Hi Eimu Hmax.
  unfold UpdatePose.
  change (initialized_ (set_imu_data_buff_ st [a; b])) with (initialized_ st).
  rewrite Hi. cbn [negb].
  destruct (UpdatePose_integrate_first_last st a mid b Eimu Hmax)
    as (R1 & EU1 & EP1).
  assert (Hmax2 : (size (imu_data_buff_ (set_imu_data_buff_ st [a; b]))
                   <= max_size)%N) by (apply N.leb_le; reflexivity).
  destruct (UpdatePose_integrate_first_last (set_imu_data_buff_ st [a; b])
              a [] b eq_refl Hmax2) as (R2 & EU2 & EP2).
  rewrite EP1, EP2.
  change (GetUnbiasedAngularVel (set_imu_data_buff_ st [a; b]))
    with (GetUnbiasedAngularVel st) in EU2.
  rewrite UpdateOrientation_imu, EU1 in EU2. cbn [bind] in EU2.
  injection EU2 as _ ER. subst R2.
  cbn [set_imu_data_buff_ odom_data_buff_].
  destruct (back (odom_data_buff_ st)); reflexivity.
Qed.

(** X9.  A duplicate time stamp is not refused: when the oldest and the
    newest buffered sample carry the same time stamp, the step succeeds,
    leaves pose and velocity as they were (the rotation block being a
    rotation), and still drops all samples but the newest. *)
Theorem UpdatePose_zero_duration_step :
  forall SyncData (st : Activity) (a : IMUData.t) (mid : list IMUData.t)
         (b : IMUData.t),
    initialized_ st = true ->
    imu_data_buff_ st = a :: mid ++ [b] ->
    (size (imu_data_buff_ st) <= max_size)%N ->
    IMUData.time b = IMUData.time a ->
    is_rotation (block33 (pose_ st)) ->
    UpdatePose SyncData st =
      (odom_data <- back (odom_data_buff_ st) ;;
       Ok (set_odom_data_buff_ (set_imu_data_buff_ st [b]) [odom_data], true)).
Proof.
  intros SyncData st a mid b Hi Eimu Hmax Et Hrot.
  unfold UpdatePose. rewrite Hi. cbn [negb].
  destruct (UpdatePose_integrate_first_last st a mid b Eimu Hmax)
    as (R1 & EU & EP).
  rewrite EP. clear EP. revert EU.
  replace (IMUData.time b - IMUData.time a) with 0 by lra.
  rewrite !vscale_zero_l. rewrite (UpdateOrientation_Zero3 _ Hrot).
  intros EU. injection EU as E1 ER. rewrite <- E1, UpdatePosition_null.
  reflexivity.
Qed.

(** X10.  Uniform motion: when the unbiased angular velocity and the
    compensated force are zero at the oldest and at the newest buffered
    sample, the step leaves orientation and velocity as they were and
    moves the position by the elapsed time times the velocity. *)
Theorem UpdatePose_uniform_motion :
  forall SyncData (st : Activity) (a : IMUData.t) (mid : list IMUData.t)
         (b : IMUData.t),
    initialized_ st = true ->
    imu_data_buff_ st = a :: mid ++ [b] ->
    (size (imu_data_buff_ st) <= max_size)%N ->
    odom_data_buff_ st <> [] ->
    is_rotation (block33 (pose_ st)) ->
    GetUnbiasedAngularVel st (IMUData.angular_velocity a) = Zero3 ->
    GetUnbiasedAngularVel st (IMUData.angular_velocity b) = Zero3 ->
    GetUnbiasedLinearAcc st (IMUData.linear_acceleration a)
                         (block33 (pose_ st)) = Zero3 ->
    GetUnbiasedLinearAcc st (IMUData.linear_acceleration b)
                         (block33 (pose_ st)) = Zero3 ->
    exists st',
      UpdatePose SyncData st = Ok (st', true) /\
      block33 (pose_ st') = block33 (pose_ st) /\
      vel_ st' = vel_ st /\
      block31 (pose_ st')
        = vadd (block31 (pose_ st))
               (vscale (IMUData.time b - IMUData.time a) (vel_ st)) /\
      imu_data_buff_ st' = [b].
Proof.
  intros SyncData st a mid b Hi Eimu Hmax Hodom Hrot Hwa Hwb Hfa Hfb.
  unfold UpdatePose. rewrite Hi. cbn [negb].
  destruct (UpdatePose_integrate_first_last st a mid b Eimu Hmax)
    as (R1 & EU & EP).
  rewrite EP. clear EP. revert EU. rewrite Hwa, Hwb, vscale_Zero3.
  rewrite (UpdateOrientation_Zero3 _ Hrot).
  intros EU. injection EU as E1 ER. rewrite <- E1, <- ER, Hfa, Hfb, vscale_Zero3.
  destruct (back_nonempty _ Hodom) as (o & Eo). rewrite Eo. cbn [bind].
  eexists. split; [reflexivity|].
  unfold UpdatePosition.
  cbn [set_odom_data_buff_ set_imu_data_buff_ set_vel_ set_pose_ pose_ vel_
       imu_data_buff_].
  split. { destruct (pose_ st); reflexivity. }
  split. { unfold vadd, Zero3. destruct (vel_ st). cbn [x y z]. f_equal; lra. }
  split; [|reflexivity].
  destruct (pose_ st), (vel_ st).
  unfold block31, set_block31, vadd, vscale, Zero3. cbn. f_equal; lra.
Qed.

(** [crowded]: three samples, the one in the middle is never read. *)
Lemma UpdatePose_skips_samples_in_between_witness :
  UpdatePose SyncData_spec crowded
  = UpdatePose SyncData_spec
      (set_imu_data_buff_ crowded [imu_sample 0 1; imu_sample 0.1 3]).
Proof.
  apply (UpdatePose_skips_samples_in_between SyncData_spec crowded
           (imu_sample 0 1) [imu_sample 0.05 2] (imu_sample 0.1 3)).
  - reflexivity.
  - reflexivity.
  - apply N.leb_le. reflexivity.
Defined.

(** [duplicate_stamps]: both samples are stamped [0]. *)
Lemma UpdatePose_zero_duration_step_witness :
  UpdatePose SyncData_spec duplicate_stamps
  = Ok (set_odom_data_buff_
          (set_imu_data_buff_ duplicate_stamps [imu_sample 0 2])
          [odom_at_rest 0], true).
Proof.
  rewrite (UpdatePose_zero_duration_step SyncData_spec duplicate_stamps
             (imu_sample 0 1) [] (imu_sample 0 2)).
  - reflexivity.
  - reflexivity.
  - reflexivity.
  - apply N.leb_le. reflexivity.
  - reflexivity.
  - exact Identity3_is_rotation.
Defined.

(** The end-to-end scenario with the specific force equal to gravity. *)
Lemma UpdatePose_uniform_motion_witness :
  exists st',
    UpdatePose SyncData_spec (end_to_end (-9.81)) = Ok (st', true) /\
    vel_ st' = vel_ (end_to_end (-9.81)).
Proof.
  destruct (UpdatePose_uniform_motion SyncData_spec (end_to_end (-9.81))
              (imu_sample 0 (-9.81)) [] (imu_sample 0.1 (-9.81)))
    as (st' & E & _ & Hv & _).
  - reflexivity.
  - reflexivity.
  - apply N.leb_le. reflexivity.
  - discriminate.
  - exact Identity3_is_rotation.
  - unfold GetUnbiasedAngularVel, vsub, Zero3. cbn. f_equal; lra.
  - unfold GetUnbiasedAngularVel, vsub, Zero3. cbn. f_equal; lra.
  - unfold GetUnbiasedLinearAcc, mulv, vsub, Identity3, Zero3. cbn.
    f_equal; lra.
  - unfold GetUnbiasedLinearAcc, mulv, vsub, Identity3, Zero3. cbn.
    f_equal; lra.
  - exists st'. split; assumption.
Defined.

(** * Further properties of the cycle and of sessions *)

Lemma set_odom_data_buff_same st : set_odom_data_buff_ st (odom_data_buff_ st) = st.
Proof. destruct st; reflexivity. Qed.

Lemma calibration_kept_refl st : calibration_kept st st.
Proof. unfold calibration_kept. auto. Qed.

Lemma calibration_kept_trans st1 st2 st3 :
  calibration_kept st1 st2 -> calibration_kept st2 st3 ->
  calibration_kept st1 st3.
Proof.
  unfold calibration_kept. intros (A1 & A2 & A3 & A4) (B1 & B2 & B3 & B4).
  repeat split; try congruence. auto.
Qed.

Section MoreSessions.

Variable SyncData :
  deque OdomData.t -> deque OdomData.t -> R ->
  result (deque OdomData.t * deque OdomData.t * bool).

(** The initializing branch, case by case on the static flag and on the
    answer of the synchronizer. *)
Lemma UpdatePose_init_eval st imu_data unsynced synced valid_odom :
  back (imu_data_buff_ st) = Ok imu_data ->
  SyncData (odom_data_buff_ st) (odom_data_buff_ st) (IMUData.time imu_data)
    = Ok (unsynced, synced, valid_odom) ->
  UpdatePose_init SyncData st =
    if negb (sensor_inited st) && negb valid_odom
    then Ok (set_odom_data_buff_ st synced, false)
    else
      odom_data <- back synced ;;
      Ok (mkActivity true (G_ st) (angular_vel_bias_ st) (linear_acc_bias_ st)
            [imu_data] [odom_data]
            (OdomData.pose odom_data) (OdomData.vel odom_data)
            (OdomData.time odom_data) true, true).
Proof.
  intros Eb Es. destruct st as [ini G ab lb imu odom pose vel t0 si].
  unfold UpdatePose_init. simpl_state. simpl_state in Eb. simpl_state in Es.
  destruct (size imu =? 0)%N eqn:Hs.
  { apply N.eqb_eq in Hs. unfold size in Hs. destruct imu; [discriminate|].
    cbn in Hs. lia. }
  rewrite Eb. simpl_state. rewrite Es. simpl_state.
  destruct si; simpl_state.
  - rewrite Eb. destruct (back synced); reflexivity.
  - destruct valid_odom; simpl_state.
    + rewrite Eb. destruct (back synced); reflexivity.
    + reflexivity.
Qed.

(** What the initializing branch can leave behind. *)
Lemma UpdatePose_init_result st st' updated :
  UpdatePose_init SyncData st = Ok (st', updated) ->
  (updated = false /\ exists odom, st' = set_odom_data_buff_ st odom) \/
  (updated = true /\
   exists i o,
     back (imu_data_buff_ st) = Ok i /\
     st' = mkActivity true (G_ st) (angular_vel_bias_ st) (linear_acc_bias_ st)
             [i] [o] (OdomData.pose o) (OdomData.vel o) (OdomData.time o) true).
Proof.
  intros E.
  destruct (size (imu_data_buff_ st) =? 0)%N eqn:Hs.
  { unfold UpdatePose_init in E. rewrite Hs in E. injection E as <- <-.
    left. split; [reflexivity|]. exists (odom_data_buff_ st).
    symmetry. apply set_odom_data_buff_same. }
  destruct (back (imu_data_buff_ st)) as [imu_data |] eqn:Eb.
  2:{ unfold UpdatePose_init in E. rewrite Hs, Eb in E. discriminate. }
  destruct (SyncData (odom_data_buff_ st) (odom_data_buff_ st)
              (IMUData.time imu_data))
    as [[[unsynced synced] valid_odom] |] eqn:Es.
  2:{ unfold UpdatePose_init in E. rewrite Hs, Eb in E. cbn [bind] in E.
      rewrite Es in E. discriminate. }
  rewrite (UpdatePose_init_eval _ _ _ _ _ Eb Es) in E.
  destruct (negb (sensor_inited st) && negb valid_odom).
  - injection E as <- <-. left. split; [reflexivity|]. exists synced.
    reflexivity.
  - destruct (back synced) as [o |]; [|discriminate]. cbn [bind] in E.
    injection E as <- <-. right. split; [reflexivity|].
    exists imu_data, o. split; reflexivity.
Qed.

(** What the integrating branch can leave behind. *)
Lemma UpdatePose_integrate_result st st' updated :
  UpdatePose_integrate st = Ok (st', updated) ->
  imu_data_buff_ st <> [] /\
  ((updated = false /\ exists P, st' = set_pose_ st P) \/
   (updated = true /\
    exists i o P v,
      back (imu_data_buff_ st) = Ok i /\
      st' = mkActivity (initialized_ st) (G_ st) (angular_vel_bias_ st)
              (linear_acc_bias_ st) [i] [o] P v (init_time_ st)
              (sensor_inited st))).
Proof.
  unfold UpdatePose_integrate.
  destruct (back (imu_data_buff_ st)) as [imu_data |] eqn:Eb; [|discriminate].
  cbn [bind]. intros E. split.
  { intros En. rewrite En in Eb. discriminate. }
  revert E.
  destruct (GetAngularDelta _ _ _) as [[angular_delta |] |]; [| |discriminate];
    cbn [bind].
  2:{ intros E. injection E as <- <-. left. split; [reflexivity|].
      exists (pose_ st). symmetry. apply set_pose_same. }
  destruct (UpdateOrientation angular_delta st)
    as [[[st1 R_curr] R_prev] |] eqn:EU; [|discriminate].
  apply UpdateOrientation_frame in EU as [-> ->]. cbn [bind].
  destruct (GetVelocityDelta _ _ _ _ _) as [[[delta_t velocity_delta] |] |];
    [| |discriminate]; cbn [bind].
  2:{ intros E. injection E as <- <-. left. split; [reflexivity|].
      eexists. reflexivity. }
  cbn [UpdatePosition set_imu_data_buff_ set_odom_data_buff_ set_pose_ set_vel_
       odom_data_buff_ imu_data_buff_ app].
  destruct (back (odom_data_buff_ st)) as [odom_data |]; [|discriminate].
  cbn [bind]. intros E. injection E as <- <-. right. split; [reflexivity|].
  exists imu_data. do 3 eexists. split; reflexivity.
Qed.

Lemma UpdatePose_more st st' updated :
  UpdatePose SyncData st = Ok (st', updated) ->
  calibration_kept st st' /\ (seeded_imu st -> seeded_imu st') /\
  (updated = true ->
   initialized_ st' = true /\
   exists i o, imu_data_buff_ st' = [i] /\ odom_data_buff_ st' = [o]).
Proof.
  unfold UpdatePose. destruct (initialized_ st) eqn:Hi; cbn [negb]; intros E.
  - apply UpdatePose_integrate_result in E
      as [Himu [(-> & P & ->) | (-> & i & o & P & v & _ & ->)]].
    + split; [unfold calibration_kept; cbn; auto|].
      split; [|discriminate]. intros _ _. exact Himu.
    + split; [unfold calibration_kept; cbn; auto|].
      split; [intros _ _; discriminate|].
      intros _. split; [exact Hi|]. exists i, o. split; reflexivity.
  - apply UpdatePose_init_result in E
      as [(-> & odom & ->) | (-> & i & o & _ & ->)].
    + split; [unfold calibration_kept; cbn; auto|].
      split; [|discriminate]. intros _. unfold seeded_imu. cbn. rewrite Hi.
      discriminate.
    + split.
      { unfold calibration_kept. cbn. repeat split; auto. }
      split; [intros _ _; discriminate|].
      intros _. split; [reflexivity|]. exists i, o. split; reflexivity.
Qed.

(** [UpdatePose] keeps the newest inertial sample. *)
Lemma UpdatePose_back st st' updated :
  UpdatePose SyncData st = Ok (st', updated) ->
  back (imu_data_buff_ st') = back (imu_data_buff_ st).
Proof.
  unfold UpdatePose. destruct (initialized_ st); cbn [negb]; intros E.
  - apply UpdatePose_integrate_result in E
      as [_ [(_ & P & ->) | (_ & i & o & P & v & Eb & ->)]].
    + reflexivity.
    + rewrite Eb. reflexivity.
  - apply UpdatePose_init_result in E
      as [(_ & odom & ->) | (_ & i & o & Eb & ->)].
    + reflexivity.
    + rewrite Eb. reflexivity.
Qed.

Lemma Run_loop_back fuel : forall st st' out,
  Run_loop SyncData fuel st = Ok (st', out) ->
  back (imu_data_buff_ st') = back (imu_data_buff_ st).
Proof.
  induction fuel as [| fuel IH]; intros st st' out; cbn [Run_loop];
    [discriminate|].
  destruct (HasData st).
  2:{ intros E. injection E as <- <-. reflexivity. }
  destruct (UpdatePose SyncData st) as [[st1 updated] |] eqn:EU; [|discriminate].
  cbn [bind]. apply UpdatePose_back in EU. destruct updated.
  - destruct (PublishPose st1); [|discriminate]. cbn [bind].
    destruct (SaveTrajectoryTum st1); [|discriminate]. cbn [bind].
    destruct (Run_loop SyncData fuel st1) as [[st2 out1] |] eqn:ER;
      [|discriminate].
    cbn [bind]. intros E. injection E as <- <-.
    rewrite (IH _ _ _ ER). exact EU.
  - intros E. rewrite (IH _ _ _ E). exact EU.
Qed.

Lemma ReadData_more new_imu new_odom st st' :
  ReadData new_imu new_odom st = Ok st' ->
  calibration_kept st st' /\ (seeded_imu st -> seeded_imu st') /\
  pose_ st' = pose_ st /\ vel_ st' = vel_ st.
Proof.
  unfold ReadData, ParseData, insert_end.
  destruct (size (imu_data_buff_ st) + size new_imu <=? max_size)%N;
    [|discriminate].
  destruct (size (odom_data_buff_ st) + size new_odom <=? max_size)%N;
    [|discriminate].
  cbn [bind]. intros E. injection E as <-.
  split; [unfold calibration_kept; cbn; auto|]. split; [|split; reflexivity].
  unfold seeded_imu. cbn. intros H Hi E. apply app_eq_nil in E as [E _].
  exact (H Hi E).
Qed.

Lemma singletons_HasData st i :
  imu_data_buff_ st = [i] -> HasData st = false.
Proof. intros E. unfold HasData. rewrite E. reflexivity. Qed.

(** The loop of [Run]: it returns only when [HasData] is false, and with
    at most one message. *)
Lemma Run_loop_more fuel : forall st st' out,
  Run_loop SyncData fuel st = Ok (st', out) ->
  calibration_kept st st' /\ (seeded_imu st -> seeded_imu st') /\
  HasData st' = false /\
  (out = [] \/
   exists msg lines i o,
     out = [(msg, lines)] /\ initialized_ st' = true /\
     imu_data_buff_ st' = [i] /\ odom_data_buff_ st' = [o] /\
     PublishPose st' = Ok msg /\ SaveTrajectoryTum st' = Ok lines).
Proof.
  induction fuel as [| fuel IH]; intros st st' out; cbn [Run_loop];
    [discriminate|].
  destruct (HasData st) eqn:Hd.
  2:{ intros E. injection E as <- <-.
      split; [apply calibration_kept_refl|]. split; [auto|].
      split; [exact Hd|]. left. reflexivity. }
  destruct (UpdatePose SyncData st) as [[st1 updated] |] eqn:EU; [|discriminate].
  cbn [bind]. apply UpdatePose_more in EU as (K1 & K2 & K3).
  destruct updated.
  - destruct (K3 eq_refl) as (Hi1 & i & o & Ei & Eo).
    destruct (PublishPose st1) as [msg |] eqn:EP; [|discriminate]. cbn [bind].
    destruct (SaveTrajectoryTum st1) as [lines |] eqn:ES; [|discriminate].
    cbn [bind].
    destruct fuel as [| fuel]; [discriminate|]. cbn [Run_loop].
    rewrite (singletons_HasData _ _ Ei). cbn [bind].
    intros E. injection E as <- <-.
    split; [exact K1|]. split; [exact K2|].
    split; [exact (singletons_HasData _ _ Ei)|].
    right. exists msg, lines, i, o. repeat split; assumption.
  - intros E. apply IH in E as (L1 & L2 & L3 & L4).
    split; [exact (calibration_kept_trans _ _ _ K1 L1)|].
    split; [auto|]. split; assumption.
Qed.

Lemma do_call_more c st st' :
  (forall cfg, c <> CallInit cfg) ->
  do_call SyncData c st = Ok st' ->
  calibration_kept st st' /\ (seeded_imu st -> seeded_imu st').
Proof.
  intros Hc.
  destruct c as [cfg | new_imu new_odom | | fuel new_imu new_odom];
    cbn [do_call].
  - exfalso. exact (Hc cfg eq_refl).
  - intros E. apply ReadData_more in E as (K1 & K2 & _). split; assumption.
  - destruct (UpdatePose SyncData st) as [[st1 updated] |] eqn:EU;
      [|discriminate].
    cbn [bind]. intros E. injection E as <-.
    apply UpdatePose_more in EU as (K1 & K2 & _). split; assumption.
  - unfold Run.
    destruct (ReadData new_imu new_odom st) as [st1 |] eqn:ER; [|discriminate].
    cbn [bind].
    destruct (Run_loop SyncData fuel st1) as [[st2 out] |] eqn:EL;
      [|discriminate].
    cbn [bind]. intros E. injection E as <-.
    apply ReadData_more in ER as (K1 & K2 & _).
    apply Run_loop_more in EL as (L1 & L2 & _).
    split; [exact (calibration_kept_trans _ _ _ K1 L1) | auto].
Qed.

Lemma Init_seeded_imu cfg st : seeded_imu st -> seeded_imu (Init cfg st).
Proof. unfold seeded_imu. cbn. auto. Qed.

Lemma session_seeded_imu calls : forall st st',
  session SyncData calls st = Ok st' -> seeded_imu st -> seeded_imu st'.
Proof.
  induction calls as [| c calls IH]; intros st st'; cbn [session].
  - intros E. injection E as <-. auto.
  - destruct (do_call SyncData c st) as [st1 |] eqn:Ec; [|discriminate].
    cbn [bind]. intros E H. apply (IH _ _ E).
    destruct c as [cfg | new_imu new_odom | | fuel new_imu new_odom].
    + cbn [do_call] in Ec. injection Ec as <-. apply Init_seeded_imu. exact H.
    + apply do_call_more in Ec as [_ K]; [auto | discriminate].
    + apply do_call_more in Ec as [_ K]; [auto | discriminate].
    + apply do_call_more in Ec as [_ K]; [auto | discriminate].
Qed.

Lemma session_calibration calls : forall st st',
  (forall c cfg, In c calls -> c <> CallInit cfg) ->
  session SyncData calls st = Ok st' -> calibration_kept st st'.
Proof.
  induction calls as [| c calls IH]; intros st st' Hc; cbn [session].
  - intros E. injection E as <-. apply calibration_kept_refl.
  - destruct (do_call SyncData c st) as [st1 |] eqn:Ec; [|discriminate].
    cbn [bind]. intros E.
    apply do_call_more in Ec as [K _].
    2:{ intros cfg. apply Hc. left. reflexivity. }
    apply (calibration_kept_trans _ _ _ K). apply IH; [|exact E].
    intros c' cfg Hin. apply Hc. right. exact Hin.
Qed.

End MoreSessions.

(** ** The initializing branch and the static flag *)

(** X11.  The validity check of the initializing branch is made while the
    static flag [sensor_inited] is clear, and only then: with the flag set
    and a synchronizer that reports failure, [UpdatePose] still
    initializes, from the newest sample of the buffer the synchronizer
    left; with the flag clear the same call answers false and leaves the
    estimator uninitialized. *)
Theorem UpdatePose_checks_validity_once :
  forall SyncData (st : Activity) (imu_data : IMUData.t)
         (unsynced synced : deque OdomData.t) (odom_data : OdomData.t),
    initialized_ st = false ->
    back (imu_data_buff_ st) = Ok imu_data ->
    SyncData (odom_data_buff_ st) (odom_data_buff_ st) (IMUData.time imu_data)
      = Ok (unsynced, synced, false) ->
    back synced = Ok odom_data ->
    UpdatePose SyncData (set_sensor_inited st true)
      = Ok (mkActivity true (G_ st) (angular_vel_bias_ st) (linear_acc_bias_ st)
              [imu_data] [odom_data]
              (OdomData.pose odom_data) (OdomData.vel odom_data)
              (OdomData.time odom_data) true, true) /\
    UpdatePose SyncData (set_sensor_inited st false)
      = Ok (set_odom_data_buff_ (set_sensor_inited st false) synced, false).
Proof.
  intros SyncData st imu_data unsynced synced odom_data Hi Eb Es Eo.
  unfold UpdatePose. cbn [set_sensor_inited initialized_]. rewrite Hi.
  cbn [negb]. split.
  - rewrite (UpdatePose_init_eval SyncData _ imu_data unsynced synced false);
      [|exact Eb|exact Es].
    cbn [sensor_inited negb andb]. rewrite Eo. reflexivity.
  - rewrite (UpdatePose_init_eval SyncData _ imu_data unsynced synced false);
      [|exact Eb|exact Es].
    reflexivity.
Qed.

Lemma SyncData_spec_late synced :
  SyncData_spec [odom_at_rest 1; odom_at_rest 2] synced 0.5
  = Ok ([odom_at_rest 1; odom_at_rest 2], synced, false).
Proof.
  unfold SyncData_spec, SyncData_bracket, odom_at_rest.
  cbn [OdomData.time]. destruct (Rgt_dec 1 0.5) as [_ | H]; [|lra].
  reflexivity.
Qed.

(** [unsynced]: the inertial samples end at [0.5], the auxiliary samples
    start at [1]; the estimator is initialized from the sample stamped
    [2]. *)
Lemma UpdatePose_checks_validity_once_witness :
  UpdatePose SyncData_spec (unsynced true)
    = Ok (mkActivity true (mkVector3d 0 0 (-9.81)) Zero3 Zero3
            [imu_sample 0.5 (-9.81)] [odom_at_rest 2]
            Identity4 Zero3 2 true, true) /\
  UpdatePose SyncData_spec (unsynced false) = Ok (unsynced false, false).
Proof.
  exact (UpdatePose_checks_validity_once SyncData_spec (unsynced false)
           (imu_sample 0.5 (-9.81)) _ _ (odom_at_rest 2)
           eq_refl eq_refl (SyncData_spec_late _) eq_refl).
Defined.

(** ** The loop of Run *)

(** X12.  Whenever the loop of [Run] returns, [HasData] is false and at
    most one message has been published; if one has, the estimator is
    initialized and each buffer holds exactly one sample. *)
Theorem Run_loop_publishes_at_most_once :
  forall SyncData (fuel : nat) (st st' : Activity)
         (out : list (Odometry * (TumLine * TumLine))),
    Run_loop SyncData fuel st = Ok (st', out) ->
    HasData st' = false /\
    (length out <= 1)%nat /\
    (out <> [] ->
     initialized_ st' = true /\
     exists i o, imu_data_buff_ st' = [i] /\ odom_data_buff_ st' = [o]).
Proof.
  intros SyncData fuel st st' out E.
  apply Run_loop_more in E
    as (_ & _ & Hd & [-> | (msg & lines & i & o & -> & Hi & Ei & Eo & _)]).
  - split; [exact Hd|]. split; [cbn; lia|]. intros H. contradiction.
  - split; [exact Hd|]. split; [cbn; lia|]. intros _.
    split; [exact Hi|]. exists i, o. split; assumption.
Qed.

Lemma SaveTrajectoryTum_singletons st i o :
  imu_data_buff_ st = [i] -> odom_data_buff_ st = [o] ->
  exists odom_q imu_q,
    Quaterniond_of_matrix (block33 (OdomData.pose o)) = Ok odom_q /\
    Quaterniond_of_matrix (block33 (pose_ st)) = Ok imu_q /\
    SaveTrajectoryTum st =
      Ok (mkTumLine (OdomData.time o - init_time_ st)
            (p03 (OdomData.pose o)) (p13 (OdomData.pose o))
            (p23 (OdomData.pose o)) odom_q,
          mkTumLine (IMUData.time i - init_time_ st)
            (p03 (pose_ st)) (p13 (pose_ st)) (p23 (pose_ st)) imu_q).
Proof.
  intros Ei Eo.
  destruct (Quaterniond_of_matrix_total (block33 (OdomData.pose o)))
    as (odom_q & E1 & _).
  destruct (Quaterniond_of_matrix_total (block33 (pose_ st)))
    as (imu_q & E2 & _).
  exists odom_q, imu_q. split; [exact E1|]. split; [exact E2|].
  unfold SaveTrajectoryTum. rewrite Ei, Eo. cbn [back rev app bind].
  rewrite E1. cbn [bind]. rewrite E2. reflexivity.
Qed.

Lemma block33_set_block31 p t : block33 (set_block31 p t) = block33 p.
Proof. destruct p; reflexivity. Qed.

(** One pass of the loop on an initialized estimator that has data. *)
Lemma Run_loop_step SyncData st :
  initialized_ st = true -> HasData st = true ->
  (size (imu_data_buff_ st) <= max_size)%N ->
  exists st' msg lines i o,
    UpdatePose SyncData st = Ok (st', true) /\
    imu_data_buff_ st' = [i] /\ odom_data_buff_ st' = [o] /\
    back (imu_data_buff_ st) = Ok i /\ back (odom_data_buff_ st) = Ok o /\
    PublishPose st' = Ok msg /\ SaveTrajectoryTum st' = Ok lines /\
    qsquaredNorm (orientation msg) = 1 /\
    toRotationMatrix (orientation msg) = block33 (pose_ st') /\
    forall fuel, Run_loop SyncData (S (S fuel)) st = Ok (st', [(msg, lines)]).
Proof.
  intros Hi Hd Hmax. pose proof Hd as Hd'.
  rewrite HasData_sizes in Hd'. apply andb_true_iff in Hd' as [H1 H2].
  apply N.leb_le in H1, H2.
  assert (Hodom : odom_data_buff_ st <> []).
  { intros E. unfold size in H2. rewrite E in H2. cbn in H2. lia. }
  destruct (UpdatePose_integrate_ok st H1 Hmax Hodom)
    as (i & o & d & Rc & dt & dv & Eb & Eo & _ & _ & EO & _ & EP).
  cbv zeta in EO.
  pose proof (UpdateOrientation_commits_rotation _ _ _ _ _ EO) as [Hrot _].
  set (st' := set_odom_data_buff_
                (set_imu_data_buff_
                   (UpdatePosition dt dv
                      (set_pose_ st (set_block33 (pose_ st) Rc))) [i]) [o]) in *.
  assert (EU : UpdatePose SyncData st = Ok (st', true)).
  { unfold UpdatePose. rewrite Hi. exact EP. }
  assert (Eblock : block33 (pose_ st') = Rc).
  { unfold st', UpdatePosition.
    cbn [set_odom_data_buff_ set_imu_data_buff_ set_vel_ set_pose_ pose_].
    rewrite block33_set_block31. apply block33_set_block33. }
  rewrite <- Eblock in Hrot.
  destruct (Quaterniond_of_rotation _ Hrot) as (q & Eq & Hq & Eback).
  assert (EM : PublishPose st'
               = Ok (mkOdometry q (block31 (pose_ st')) (vel_ st'))).
  { unfold PublishPose. rewrite Eq. reflexivity. }
  destruct (SaveTrajectoryTum_singletons st' i o eq_refl eq_refl)
    as (oq & iq & _ & _ & ES).
  do 5 eexists. split; [exact EU|]. split; [reflexivity|].
  split; [reflexivity|]. split; [exact Eb|]. split; [exact Eo|].
  split; [exact EM|]. split; [exact ES|].
  split; [exact Hq|]. split; [exact Eback|].
  intros fuel. cbn [Run_loop]. rewrite Hd, EU. cbn [bind].
  rewrite EM. cbn [bind]. rewrite ES. cbn [bind].
  rewrite (singletons_HasData st' i eq_refl). reflexivity.
Qed.

(** [busy]: the loop makes one step and publishes one message. *)
Lemma Run_loop_publishes_at_most_once_witness :
  exists st' out,
    Run_loop SyncData_spec 2 busy = Ok (st', out) /\
    HasData st' = false /\ (length out <= 1)%nat.
Proof.
  destruct (Run_loop_step SyncData_spec busy eq_refl eq_refl)
    as (st' & msg & lines & i & o & _ & _ & _ & _ & _ & _ & _ & _ & _ & ER).
  { apply N.leb_le. reflexivity. }
  exists st', [(msg, lines)].
  destruct (Run_loop_publishes_at_most_once _ _ _ _ _ (ER 0%nat))
    as (Hd & Hl & _).
  split; [exact (ER 0%nat)|]. split; assumption.
Defined.



(** X14.  Before initialization the loop of [Run] can spin: when the
    static flag is clear, both buffers hold two samples or more and the
    synchronizer reports failure without changing the synchronized
    buffer, [UpdatePose] answers false and leaves the state as it was, so
    the loop never returns. *)
Theorem Run_loop_spins_while_unsynchronized :
  forall SyncData (st : Activity) (imu_data : IMUData.t)
         (unsynced : deque OdomData.t),
    initialized_ st = false ->
    sensor_inited st = false ->
    HasData st = true ->
    back (imu_data_buff_ st) = Ok imu_data ->
    SyncData (odom_data_buff_ st) (odom_data_buff_ st) (IMUData.time imu_data)
      = Ok (unsynced, odom_data_buff_ st, false) ->
    UpdatePose SyncData st = Ok (st, false) /\
    forall fuel, Run_loop SyncData fuel st = Fault OutOfFuel.
Proof.
  intros SyncData st imu_data unsynced Hi Hs Hd Eb Es.
  assert (EU : UpdatePose SyncData st = Ok (st, false)).
  { unfold UpdatePose. rewrite Hi. cbn [negb].
    rewrite (UpdatePose_init_eval SyncData _ _ _ _ _ Eb Es), Hs.
    cbn [negb andb]. rewrite set_odom_data_buff_same. reflexivity. }
  split; [exact EU|].
  induction fuel as [| fuel IH]; [reflexivity|].
  cbn [Run_loop]. rewrite Hd, EU. cbn [bind]. exact IH.
Qed.

(** [unsynced false]: whatever the fuel, the loop does not return. *)
Lemma Run_loop_spins_while_unsynchronized_witness :
  Run_loop SyncData_spec 1000 (unsynced false) = Fault OutOfFuel.
Proof.
  exact (proj2 (Run_loop_spins_while_unsynchronized SyncData_spec
                  (unsynced false) (imu_sample 0.5 (-9.81)) _
                  eq_refl eq_refl eq_refl eq_refl (SyncData_spec_late _))
               1000%nat).
Defined.

(** ** Sessions *)

Lemma warm_session :
  session SyncData_spec
    [first_arrivals; CallUpdatePose; CallReadData [imu_sample 0.6 (-9.81)] []]
    fresh = Ok warm.
Proof.
  cbn [session]. rewrite primed_reached. cbn [bind do_call].
  rewrite seeded_reached. cbn [bind]. exact warm_reached.
Qed.

(** X15.  Gravity and the two biases change in [Init] only: a session
    without a call of [Init] ends with the values it started with; and the
    static flag, once set, is still set. *)
Theorem calibration_changes_in_Init_only :
  forall SyncData (calls : list call) (st st' : Activity),
    (forall c cfg, In c calls -> c <> CallInit cfg) ->
    session SyncData calls st = Ok st' ->
    G_ st' = G_ st /\
    angular_vel_bias_ st' = angular_vel_bias_ st /\
    linear_acc_bias_ st' = linear_acc_bias_ st /\
    (sensor_inited st = true -> sensor_inited st' = true).
Proof.
  intros SyncData calls st st' Hc E.
  exact (session_calibration SyncData calls st st' Hc E).
Qed.

(** The session of the scenarios, from [fresh] to [warm]. *)
Lemma calibration_changes_in_Init_only_witness :
  G_ warm = G_ fresh /\
  angular_vel_bias_ warm = angular_vel_bias_ fresh /\
  linear_acc_bias_ warm = linear_acc_bias_ fresh.
Proof.
  destruct (calibration_changes_in_Init_only SyncData_spec
              [first_arrivals; CallUpdatePose;
               CallReadData [imu_sample 0.6 (-9.81)] []] fresh warm)
    as (H1 & H2 & H3 & _).
  - intros c cfg [<- | [<- | [<- | []]]]; discriminate.
  - exact warm_session.
  - repeat split; assumption.
Defined.



Lemma reachable_seeded_imu SyncData st : reachable SyncData st -> seeded_imu st.
Proof.
  intros (pose0 & vel0 & t0 & s0 & cfg & calls & E).
  apply (session_seeded_imu SyncData calls _ _ E).
  unfold seeded_imu. cbn. discriminate.
Qed.

(** With a single inertial sample the integrating branch answers false
    and changes nothing. *)
Lemma UpdatePose_integrate_single st a :
  imu_data_buff_ st = [a] -> UpdatePose_integrate st = Ok (st, false).
Proof.
  intros E. unfold UpdatePose_integrate, GetAngularDelta. rewrite E.
  reflexivity.
Qed.

(** X17.  In a session an initialized estimator never takes [back()] of
    an empty deque and never reads past the end of the inertial buffer:
    [UpdatePose] completes, and it answers true exactly when two inertial
    samples or more are buffered. *)
Theorem UpdatePose_completes_once_initialized :
  forall SyncData (st : Activity),
    reachable SyncData st ->
    initialized_ st = true ->
    exists st',
      UpdatePose SyncData st
      = Ok (st', (2 <=? size (imu_data_buff_ st))%N).
Proof.
  intros SyncData st Hr Hi.
  destruct (reachable_buffers_ok _ _ Hr) as [Hmax Hodom].
  pose proof (reachable_seeded_imu _ _ Hr Hi) as Himu.
  unfold UpdatePose. rewrite Hi. cbn [negb].
  destruct (N.leb_spec 2 (size (imu_data_buff_ st))) as [H2 | H2].
  - destruct (UpdatePose_integrate_ok st H2 Hmax (Hodom Hi))
      as (i & o & d & Rc & dt & dv & _ & _ & _ & _ & _ & _ & EP).
    eexists. exact EP.
  - destruct (imu_data_buff_ st) as [| a [| b l]] eqn:E.
    + contradiction.
    + exists st. apply (UpdatePose_integrate_single _ a). exact E.
    + unfold size in H2. cbn [length] in H2. lia.
Qed.

(** [seeded] (one inertial sample) and [warm] (two). *)
Lemma UpdatePose_completes_once_initialized_witness :
  exists st', UpdatePose SyncData_spec warm = Ok (st', true).
Proof.
  destruct (UpdatePose_completes_once_initialized SyncData_spec warm
              warm_reachable eq_refl) as (st' & E).
  exists st'. exact E.
Defined.

(** X18.  Too few inertial samples: [UpdatePose] answers false and
    leaves the estimator exactly as it was, both when it is not
    initialized and the inertial buffer is empty and when it is
    initialized and the inertial buffer holds a single sample. *)
Theorem UpdatePose_insufficient_data :
  forall SyncData (st : Activity),
    (initialized_ st = false /\ imu_data_buff_ st = []) \/
    (initialized_ st = true /\ exists a, imu_data_buff_ st = [a]) ->
    UpdatePose SyncData st = Ok (st, false).
Proof.
  intros SyncData st [[Hi E] | [Hi [a E]]]; unfold UpdatePose; rewrite Hi;
    cbn [negb].
  - unfold UpdatePose_init. rewrite E. reflexivity.
  - apply (UpdatePose_integrate_single _ a). exact E.
Qed.

(** [fresh] (nothing buffered yet) and [seeded] (one inertial sample). *)
Lemma UpdatePose_insufficient_data_witness :
  UpdatePose SyncData_spec fresh = Ok (fresh, false) /\
  UpdatePose SyncData_spec seeded = Ok (seeded, false).
Proof.
  split.
  - apply UpdatePose_insufficient_data. left. split; reflexivity.
  - apply UpdatePose_insufficient_data. right. split; [reflexivity|].
    exists (imu_sample 0.5 (-9.81)). reflexivity.
Defined.

Lemma back_app_nonempty {A : Type} (d more : deque A) a :
  back more = Ok a -> back (d ++ more) = Ok a.
Proof.
  unfold back. rewrite rev_app_distr.
  destruct (rev more) as [| y l]; [discriminate|].
  intros E. injection E as <-. reflexivity.
Qed.

(** X19.  The newest inertial sample is never dropped: [UpdatePose]
    leaves the last element of the inertial buffer as it finds it, so
    after [Run] the last element is the newest arrival, ready to be the
    older endpoint of the next step. *)
Theorem Run_keeps_newest_arrival :
  forall SyncData (fuel : nat) (new_imu : deque IMUData.t)
         (new_odom : deque OdomData.t) (st st' : Activity)
         (out : list (Odometry * (TumLine * TumLine))) (newest : IMUData.t),
    Run SyncData fuel new_imu new_odom st = Ok (st', out) ->
    back new_imu = Ok newest ->
    back (imu_data_buff_ st') = Ok newest.
Proof.
  intros SyncData fuel new_imu new_odom st st' out newest E Eb.
  unfold Run in E.
  destruct (ReadData new_imu new_odom st) as [st1 |] eqn:ER; [|discriminate].
  cbn [bind] in E. rewrite (Run_loop_back SyncData _ _ _ _ E).
  unfold ReadData, ParseData, insert_end in ER.
  destruct (size (imu_data_buff_ st) + size new_imu <=? max_size)%N;
    [|discriminate].
  destruct (size (odom_data_buff_ st) + size new_odom <=? max_size)%N;
    [|discriminate].
  cbn [bind] in ER. injection ER as <-.
  cbn [set_odom_data_buff_ set_imu_data_buff_ imu_data_buff_].
  apply back_app_nonempty. exact Eb.
Qed.

(** [seeded] receives one inertial sample and one auxiliary sample: no
    step is made, the arrival is kept. *)
Lemma Run_keeps_newest_arrival_witness :
  exists st' out,
    Run SyncData_spec 1 [imu_sample 0.6 (-9.81)] [] seeded = Ok (st', out) /\
    back (imu_data_buff_ st') = Ok (imu_sample 0.6 (-9.81)).
Proof.
  assert (E : Run SyncData_spec 1 [imu_sample 0.6 (-9.81)] [] seeded
              = Ok (warm, [])) by reflexivity.
  exists warm, []. split; [exact E|].
  exact (Run_keeps_newest_arrival _ _ _ _ _ _ _ _ E eq_refl).
Defined.

(** * Further properties of the compensator and of the sinks *)

(** X20.  [PublishPose] completes whatever the pose: the conversion of
    the rotation block divides by a positive number in each of its four
    branches, and the quaternion it publishes is never zero. *)
Theorem PublishPose_completes :
  forall st : Activity,
    exists msg,
      PublishPose st = Ok msg /\
      0 < qsquaredNorm (orientation msg) /\
      position msg = block31 (pose_ st) /\
      twist_linear msg = vel_ st.
Proof.
  intros st.
  destruct (Quaterniond_of_matrix_total (block33 (pose_ st))) as (q & Eq & Hq).
  unfold PublishPose. rewrite Eq. cbn [bind].
  eexists. split; [reflexivity|]. cbn [orientation position twist_linear].
  repeat split. exact Hq.
Qed.

(** X21.  [UpdateOrientation] writes the rotation block of the pose and
    nothing else: translation, last row, velocity, buffers, flags, times
    and calibration are as before. *)
Theorem UpdateOrientation_writes_rotation_only :
  forall (st st1 : Activity) (angular_delta : Vector3d)
         (R_curr R_prev : Matrix3d),
    UpdateOrientation angular_delta st = Ok (st1, R_curr, R_prev) ->
    block31 (pose_ st1) = block31 (pose_ st) /\
    row3 (pose_ st1) = row3 (pose_ st) /\
    vel_ st1 = vel_ st /\
    imu_data_buff_ st1 = imu_data_buff_ st /\
    odom_data_buff_ st1 = odom_data_buff_ st /\
    initialized_ st1 = initialized_ st /\
    init_time_ st1 = init_time_ st /\
    sensor_inited st1 = sensor_inited st /\
    G_ st1 = G_ st /\
    angular_vel_bias_ st1 = angular_vel_bias_ st /\
    linear_acc_bias_ st1 = linear_acc_bias_ st.
Proof.
  intros st st1 angular_delta R_curr R_prev E.
  apply UpdateOrientation_frame in E as [-> _].
  cbn [set_pose_ pose_ vel_ imu_data_buff_ odom_data_buff_ initialized_
       init_time_ sensor_inited G_ angular_vel_bias_ linear_acc_bias_].
  split. { destruct (pose_ st); reflexivity. }
  split. { destruct (pose_ st); reflexivity. }
  repeat split; reflexivity.
Qed.

(** A turn about z on a pose that has been moved to [(1, 2, 3)]. *)
Lemma UpdateOrientation_writes_rotation_only_witness :
  exists st1 R_curr R_prev,
    UpdateOrientation (mkVector3d 0 0 1)
      (set_pose_ (end_to_end 0) (set_block31 Identity4 (mkVector3d 1 2 3)))
      = Ok (st1, R_curr, R_prev) /\
    block31 (pose_ st1) = mkVector3d 1 2 3.
Proof.
  destruct (UpdateOrientation_total (mkVector3d 0 0 1)
              (set_pose_ (end_to_end 0)
                 (set_block31 Identity4 (mkVector3d 1 2 3))))
    as (R_curr & EU).
  do 3 eexists. split; [exact EU|].
  exact (proj1 (UpdateOrientation_writes_rotation_only _ _ _ _ _ EU)).
Defined.

(** The rows of a rotation matrix are orthonormal too. *)
Lemma rotation_rows m : is_rotation m -> mmul m (transpose m) = Identity3.
Proof.
  destruct m as [a b c d e f g h i].
  unfold is_rotation, mmul, transpose, determinant, Identity3. cbn.
  intros [Ho Hd]. injection Ho as H00 H01 H02 H10 H11 H12 H20 H21 H22.
  clear H10 H20 H21. f_equal; nsatz.
Qed.

Lemma mulv_mmul a b v : mulv a (mulv b v) = mulv (mmul a b) v.
Proof.
  destruct a, b, v. unfold mulv, mmul. cbn. f_equal; ring.
Qed.

(** X22.  A body at rest in any attitude: when the accelerometer reads
    the configured gravity vector expressed in the body frame plus the
    bias, the compensated force is zero for the rotation [R] of that
    attitude. *)
Theorem GetUnbiasedLinearAcc_at_rest :
  forall (st : Activity) (R : Matrix3d),
    is_rotation R ->
    GetUnbiasedLinearAcc st
      (vadd (mulv (transpose R) (G_ st)) (linear_acc_bias_ st)) R
    = mkVector3d 0 0 0.
Proof.
  intros st R Hrot.
  unfold GetUnbiasedLinearAcc.
  replace (vsub (vadd (mulv (transpose R) (G_ st)) (linear_acc_bias_ st))
                (linear_acc_bias_ st))
    with (mulv (transpose R) (G_ st))
    by (unfold vsub, vadd; cbn [x y z];
        destruct (mulv (transpose R) (G_ st)); cbn [x y z]; f_equal; ring).
  rewrite mulv_mmul, (rotation_rows _ Hrot).
  unfold mulv, vsub, Identity3. cbn. f_equal; ring.
Qed.

(** Identity attitude, default gravity: the reading [(0, 0, -9.81)]. *)
Lemma GetUnbiasedLinearAcc_at_rest_witness :
  GetUnbiasedLinearAcc (end_to_end 0)
    (vadd (mulv (transpose Identity3) (G_ (end_to_end 0)))
          (linear_acc_bias_ (end_to_end 0))) Identity3
  = mkVector3d 0 0 0.
Proof.
  exact (GetUnbiasedLinearAcc_at_rest (end_to_end 0) Identity3
           Identity3_is_rotation).
Defined.
